(** * Email-sender: the drafting backend, its store and the SMTP client

    A shallow embedding of [backend/ultra_simple_backend.py],
    [backend/email_service.py] and the review form of
    [frontend/ultra_simple_app.py], with the properties of the design
    document stated and settled against it.

    Conventions of the embedding.
    - A Python [str] is a [string]; its characters are the code points
      below 256.
    - Python indices are [Z]: [str.find] answers [-1] when there is no
      occurrence and a slice bound may be negative.
    - What the program obtains from outside (the provider's HTTP answer,
      the SMTP session, the clock, the environment variables) is an
      argument of the function that consumes it.
    - The SQLite table [email_history] is the list of its rows in rowid
      order. *)

From Stdlib Require Import String Ascii List ZArith Lia Bool Arith.
From Stdlib Require Import Permutation Sorted DecimalString.
Import ListNotations.
Local Open Scope string_scope.
Local Open Scope Z_scope.
Set Warnings "-register-all".

(** ** Python string primitives *)

Module PyStr.

Definition len (s : string) : Z := Z.of_nat (String.length s).

(** Normalisation of a slice or search bound: a negative bound counts
    from the end, and every bound is clamped to [0 .. len]. *)
Definition clamp_index (i n : Z) : Z :=
  if i <? 0 then Z.max (i + n) 0 else Z.min i n.

(** [s.find(sub, start)] for a non-empty [sub]: lowest index at or after
    [start] where [sub] occurs, [-1] when there is none. *)
Definition find_from (s sub : string) (start : Z) : Z :=
  match index (Z.to_nat (clamp_index start (len s))) sub s with
  | Some i => Z.of_nat i
  | None => -1
  end.

(** [s.find(sub)]. *)
Definition find (s sub : string) : Z := find_from s sub 0.

(** [sub in s]. *)
Definition contains (sub s : string) : bool :=
  match index 0 sub s with Some _ => true | None => false end.

(** Highest index where [sub] occurs. *)
Fixpoint rindex (sub s : string) : option nat :=
  match s with
  | EmptyString => if prefix sub EmptyString then Some 0%nat else None
  | String _ s' =>
      match rindex sub s' with
      | Some i => Some (S i)
      | None => if prefix sub s then Some 0%nat else None
      end
  end.

(** [s.rfind(sub)]. *)
Definition rfind (s sub : string) : Z :=
  match rindex sub s with
  | Some i => Z.of_nat i
  | None => -1
  end.

(** [s[a:b]]. *)
Definition slice (s : string) (a b : Z) : string :=
  let n := len s in
  let a' := clamp_index a n in
  let b' := clamp_index b n in
  substring (Z.to_nat a') (Z.to_nat (b' - a')) s.

(** [str.isspace] on one character of the modelled alphabet: TAB, LF,
    VT, FF, CR, the separators FS, GS, RS, US, the space, NEL and the
    no-break space. *)
Definition is_space (c : ascii) : bool :=
  let n := nat_of_ascii c in
  ((9 <=? n) && (n <=? 13) || (28 <=? n) && (n <=? 32)
   || (n =? 133) || (n =? 160))%nat.

Fixpoint lstrip (s : string) : string :=
  match s with
  | String c s' => if is_space c then lstrip s' else s
  | EmptyString => EmptyString
  end.

Fixpoint rstrip (s : string) : string :=
  match s with
  | String c s' =>
      match rstrip s' with
      | EmptyString => if is_space c then EmptyString else String c EmptyString
      | t => String c t
      end
  | EmptyString => EmptyString
  end.

(** [s.strip()]. *)
Definition strip (s : string) : string := rstrip (lstrip s).

(** [sep.join(items)]. *)
Fixpoint join (sep : string) (items : list string) : string :=
  match items with
  | [] => EmptyString
  | [x] => x
  | x :: rest => x ++ sep ++ join sep rest
  end.

(** [str(n)] for a natural number. *)
Definition of_nat (n : nat) : string := NilZero.string_of_uint (Nat.to_uint n).

(** [str(n)] for an integer. *)
Definition of_Z (n : Z) : string := NilZero.string_of_int (Z.to_int n).

(** [s.split(sep)] for a separator of one character. *)
Fixpoint split (sep : ascii) (s : string) : list string :=
  match s with
  | EmptyString => [EmptyString]
  | String c s' =>
      if Ascii.eqb c sep then EmptyString :: split sep s'
      else
        match split sep s' with
        | x :: rest => String c x :: rest
        | [] => [String c EmptyString]
        end
  end.

(** [str.lower] on one character of the modelled alphabet: the letters
    A to Z and the accented capitals, the multiplication sign apart. *)
Definition lower_char (c : ascii) : ascii :=
  let n := nat_of_ascii c in
  if ((65 <=? n) && (n <=? 90)
      || (192 <=? n) && (n <=? 222) && negb (n =? 215))%nat
  then ascii_of_nat (n + 32)
  else c.

(** [s.lower()]. *)
Fixpoint lower (s : string) : string :=
  match s with
  | EmptyString => EmptyString
  | String c s' => String (lower_char c) (lower s')
  end.

(** Every character of [s] is white space. *)
Fixpoint all_space (s : string) : bool :=
  match s with
  | EmptyString => true
  | String c s' => is_space c && all_space s'
  end.

(** [c in s] for one character. *)
Fixpoint has_char (c : ascii) (s : string) : bool :=
  match s with
  | EmptyString => false
  | String d s' => Ascii.eqb d c || has_char c s'
  end.

End PyStr.

(** ** JSON values, [json.dumps] and a reference [json.loads] *)

Module Json.

(** The values [json.loads] produces.  An integer literal becomes a
    Python [int]; a literal with a fraction or an exponent, and the
    constants NaN, Infinity and -Infinity, become a [float], kept here
    as its lexeme.  A [dict] is the list of its items in insertion
    order, with distinct keys. *)
Inductive json : Type :=
| JNull
| JBool (b : bool)
| JInt (n : Z)
| JFloat (lexeme : string)
| JStr (s : string)
| JArr (items : list json)
| JObj (members : list (string * json)).

Definition quote : ascii := "034"%char.
Definition backslash : ascii := "092"%char.

(** [d[k] = v]. *)
Fixpoint dict_set (k : string) (v : json) (d : list (string * json))
  : list (string * json) :=
  match d with
  | [] => [(k, v)]
  | (k', v') :: d' =>
      if String.eqb k' k then (k', v) :: d' else (k', v') :: dict_set k v d'
  end.

(** [d.get(k, default)]. *)
Fixpoint dict_get (d : list (string * json)) (k : string) (default : json)
  : json :=
  match d with
  | [] => default
  | (k', v') :: d' => if String.eqb k' k then v' else dict_get d' k default
  end.

(** *** Serialisation: [json.dumps] with its default arguments *)

Definition hex_digit (n : nat) : ascii :=
  if (n <? 10)%nat then ascii_of_nat (48 + n) else ascii_of_nat (87 + n).

(** One character inside a string literal, [ensure_ascii=True]. *)
Definition escape_char (c : ascii) : string :=
  let n := nat_of_ascii c in
  if (n =? 34)%nat then String backslash (String quote EmptyString)
  else if (n =? 92)%nat then String backslash (String backslash EmptyString)
  else if (n =? 10)%nat then String backslash "n"
  else if (n =? 13)%nat then String backslash "r"
  else if (n =? 9)%nat then String backslash "t"
  else if (n =? 8)%nat then String backslash "b"
  else if (n =? 12)%nat then String backslash "f"
  else if ((32 <=? n) && (n <=? 126))%nat then String c EmptyString
  else String backslash
         (String "u" (String "0" (String "0"
            (String (hex_digit (n / 16)) (String (hex_digit (n mod 16))
               EmptyString))))).

Fixpoint escape (s : string) : string :=
  match s with
  | EmptyString => EmptyString
  | String c s' => escape_char c ++ escape s'
  end.

Definition dumps_str (s : string) : string :=
  String quote (escape s ++ String quote EmptyString).

(** Items are separated by a comma and a space, a key from its value by
    a colon and a space.  A [float] is written as the lexeme it was read
    from, where Python prints its [repr]; the program only serialises
    strings, lists of strings and objects of those itself. *)
Fixpoint dumps (v : json) : string :=
  match v with
  | JNull => "null"
  | JBool true => "true"
  | JBool false => "false"
  | JInt n => PyStr.of_Z n
  | JFloat lexeme => lexeme
  | JStr s => dumps_str s
  | JArr items => "[" ++ PyStr.join ", " (map dumps items) ++ "]"
  | JObj members =>
      "{" ++ PyStr.join ", "
               (map (fun kv : string * json => let (k, x) := kv in
                               dumps_str k ++ ": " ++ dumps x) members)
          ++ "}"
  end.

(** *** Parsing: a reference decoder for the grammar [json.loads] accepts *)

Definition is_ws (c : ascii) : bool :=
  let n := nat_of_ascii c in
  ((n =? 32) || (n =? 9) || (n =? 10) || (n =? 13))%nat.

Fixpoint skip_ws (s : string) : string :=
  match s with
  | String c s' => if is_ws c then skip_ws s' else s
  | EmptyString => EmptyString
  end.

Definition hex_value (c : ascii) : option nat :=
  let n := nat_of_ascii c in
  if ((48 <=? n) && (n <=? 57))%nat then Some (n - 48)%nat
  else if ((97 <=? n) && (n <=? 102))%nat then Some (n - 87)%nat
  else if ((65 <=? n) && (n <=? 70))%nat then Some (n - 55)%nat
  else None.

Definition hex4 (a b c d : ascii) : option nat :=
  match hex_value a, hex_value b, hex_value c, hex_value d with
  | Some x, Some y, Some z, Some w =>
      Some (((x * 16 + y) * 16 + z) * 16 + w)%nat
  | _, _, _, _ => None
  end.

(** The character a one-letter escape stands for. *)
Definition unescape (e : ascii) : option ascii :=
  let n := nat_of_ascii e in
  if (n =? 34)%nat then Some quote
  else if (n =? 92)%nat then Some backslash
  else if (n =? 47)%nat then Some "/"%char
  else if (n =? 98)%nat then Some "008"%char
  else if (n =? 102)%nat then Some "012"%char
  else if (n =? 110)%nat then Some "010"%char
  else if (n =? 114)%nat then Some "013"%char
  else if (n =? 116)%nat then Some "009"%char
  else None.

Definition cons_str (c : ascii) (r : option (string * string))
  : option (string * string) :=
  match r with
  | Some (s, rest) => Some (String c s, rest)
  | None => None
  end.

(** The body of a string literal, after its opening quote: the decoded
    text and what follows the closing quote.  A raw control character
    is refused (strict mode); a [\uXXXX] escape of a code point outside
    the modelled alphabet is refused too. *)
Fixpoint scan_string (s : string) : option (string * string) :=
  match s with
  | EmptyString => None
  | String c s' =>
      if Ascii.eqb c quote then Some (EmptyString, s')
      else if Ascii.eqb c backslash then
        match s' with
        | EmptyString => None
        | String e s'' =>
            if Ascii.eqb e "u" then
              match s'' with
              | String h1 (String h2 (String h3 (String h4 rest))) =>
                  match hex4 h1 h2 h3 h4 with
                  | Some code =>
                      if (code <? 256)%nat
                      then cons_str (ascii_of_nat code) (scan_string rest)
                      else None
                  | None => None
                  end
              | _ => None
              end
            else
              match unescape e with
              | Some ch => cons_str ch (scan_string s'')
              | None => None
              end
        end
      else if (nat_of_ascii c <? 32)%nat then None
      else cons_str c (scan_string s')
  end.

Definition is_digit (c : ascii) : bool :=
  let n := nat_of_ascii c in ((48 <=? n) && (n <=? 57))%nat.

(** The longest prefix of digits, and the rest. *)
Fixpoint scan_digits (s : string) : string * string :=
  match s with
  | String c s' =>
      if is_digit c
      then let (ds, rest) := scan_digits s' in (String c ds, rest)
      else (EmptyString, s)
  | EmptyString => (EmptyString, EmptyString)
  end.

Fixpoint digits_value (acc : Z) (ds : string) : Z :=
  match ds with
  | String c ds' => digits_value (acc * 10 + Z.of_nat (nat_of_ascii c - 48)) ds'
  | EmptyString => acc
  end.

(** The integer part of a number: [0] or a digit string without a
    leading zero. *)
Definition scan_int (s : string) : option (string * string) :=
  match s with
  | String c s' =>
      if Ascii.eqb c "0" then Some ("0", s')
      else if is_digit c then Some (scan_digits s)
      else None
  | EmptyString => None
  end.

(** An optional fraction: a dot followed by at least one digit. *)
Definition scan_frac (s : string) : string * string :=
  match s with
  | String c s' =>
      if Ascii.eqb c "." then
        match scan_digits s' with
        | (EmptyString, _) => (EmptyString, s)
        | (ds, rest) => (String c ds, rest)
        end
      else (EmptyString, s)
  | EmptyString => (EmptyString, s)
  end.

(** An optional exponent: [e] or [E], an optional sign, at least one
    digit. *)
Definition scan_exp (s : string) : string * string :=
  match s with
  | String c s' =>
      if Ascii.eqb c "e" || Ascii.eqb c "E" then
        let (sign, s'') :=
          match s' with
          | String g t =>
              if Ascii.eqb g "+" || Ascii.eqb g "-"
              then (String g EmptyString, t) else (EmptyString, s')
          | EmptyString => (EmptyString, s')
          end in
        match scan_digits s'' with
        | (EmptyString, _) => (EmptyString, s)
        | (ds, rest) => (String c (sign ++ ds), rest)
        end
      else (EmptyString, s)
  | EmptyString => (EmptyString, s)
  end.

Definition scan_number (s : string) : option (json * string) :=
  let (neg, s1) :=
    match s with
    | String c s' => if Ascii.eqb c "-" then (true, s') else (false, s)
    | EmptyString => (false, s)
    end in
  match scan_int s1 with
  | None => None
  | Some (ip, s2) =>
      let (fp, s3) := scan_frac s2 in
      let (ep, s4) := scan_exp s3 in
      match fp, ep with
      | EmptyString, EmptyString =>
          let n := digits_value 0 ip in
          Some (JInt (if neg then - n else n), s4)
      | _, _ =>
          Some (JFloat ((if neg then "-" else "") ++ ip ++ fp ++ ep), s4)
      end
  end.

(** [s] without the prefix [p], when it starts with it. *)
Fixpoint strip_prefix (p s : string) : option string :=
  match p, s with
  | EmptyString, _ => Some s
  | String a p', String b s' =>
      if Ascii.eqb a b then strip_prefix p' s' else None
  | String _ _, EmptyString => None
  end.

(** The constants, then the numbers. *)
Definition scan_atom (s : string) : option (json * string) :=
  match strip_prefix "null" s with Some r => Some (JNull, r) | None =>
  match strip_prefix "true" s with Some r => Some (JBool true, r) | None =>
  match strip_prefix "false" s with Some r => Some (JBool false, r) | None =>
  match scan_number s with Some r => Some r | None =>
  match strip_prefix "NaN" s with Some r => Some (JFloat "NaN", r) | None =>
  match strip_prefix "Infinity" s with Some r => Some (JFloat "Infinity", r) | None =>
  match strip_prefix "-Infinity" s with Some r => Some (JFloat "-Infinity", r) | None =>
  None end end end end end end end.

(** One value at the head of [s]; [parse_elems] reads the elements of
    an array after its opening bracket, [parse_members] the members of
    an object after its opening brace.  [fuel] bounds the number of
    nested calls. *)
Fixpoint parse_value (fuel : nat) (s : string) {struct fuel}
  : option (json * string) :=
  match fuel with
  | O => None
  | S fuel' =>
      match s with
      | EmptyString => None
      | String c rest =>
          if Ascii.eqb c quote then
            match scan_string rest with
            | Some (str, r) => Some (JStr str, r)
            | None => None
            end
          else if Ascii.eqb c "[" then
            match skip_ws rest with
            | String d r =>
                if Ascii.eqb d "]" then Some (JArr [], r)
                else
                  match parse_elems fuel' (String d r) with
                  | Some (vs, r') => Some (JArr vs, r')
                  | None => None
                  end
            | EmptyString => None
            end
          else if Ascii.eqb c "{" then
            match skip_ws rest with
            | String d r =>
                if Ascii.eqb d "}" then Some (JObj [], r)
                else
                  match parse_members fuel' [] (String d r) with
                  | Some (ms, r') => Some (JObj ms, r')
                  | None => None
                  end
            | EmptyString => None
            end
          else scan_atom s
      end
  end
with parse_elems (fuel : nat) (s : string) {struct fuel}
  : option (list json * string) :=
  match fuel with
  | O => None
  | S fuel' =>
      match parse_value fuel' s with
      | None => None
      | Some (v, r) =>
          match skip_ws r with
          | String d r' =>
              if Ascii.eqb d "]" then Some ([v], r')
              else if Ascii.eqb d "," then
                match parse_elems fuel' (skip_ws r') with
                | Some (vs, r'') => Some (v :: vs, r'')
                | None => None
                end
              else None
          | EmptyString => None
          end
      end
  end
with parse_members (fuel : nat) (acc : list (string * json)) (s : string)
       {struct fuel} : option (list (string * json) * string) :=
  match fuel with
  | O => None
  | S fuel' =>
      match s with
      | EmptyString => None
      | String c rest =>
          if Ascii.eqb c quote then
            match scan_string rest with
            | None => None
            | Some (k, r) =>
                match skip_ws r with
                | String d r' =>
                    if Ascii.eqb d ":" then
                      match parse_value fuel' (skip_ws r') with
                      | None => None
                      | Some (v, r'') =>
                          let acc' := dict_set k v acc in
                          match skip_ws r'' with
                          | String e r3 =>
                              if Ascii.eqb e "}" then Some (acc', r3)
                              else if Ascii.eqb e "," then
                                parse_members fuel' acc' (skip_ws r3)
                              else None
                          | EmptyString => None
                          end
                      end
                    else None
                | EmptyString => None
                end
            end
          else None
      end
  end.

(** [json.loads(s)]: [None] stands for the exception it raises. *)
Definition loads (s : string) : option json :=
  match parse_value (2 * String.length s + 2) (skip_ws s) with
  | Some (v, r) =>
      match skip_ws r with
      | EmptyString => Some v
      | String _ _ => None
      end
  | None => None
  end.

End Json.

(** ** [backend/ultra_simple_backend.py] *)

Module Backend.
Import Json.

(** [class EmailBrief]. *)
Record EmailBrief : Type := {
  recipients : list string;
  purpose : string;
  tone : string;
  constraints : option string
}.

(** *** The provider call *)

(** The JSON body of the provider's answer, as far as
    [call_gemini_api] looks into it.  A key of a [dict] is present or
    absent. *)
Record part : Type := { text : option string }.
Record content : Type := { parts : option (list part) }.
Record candidate : Type := { content_of : option content }.
Record reply : Type := { candidates : option (list candidate) }.

(** How the [try] block of [call_gemini_api] ends: [requests.post] or
    [raise_for_status] raised a [RequestException] (no connection, a
    timeout, an HTTP error status), something else raised, or the body
    was decoded.  An exception carries its [str(e)]. *)
Inductive api_outcome : Type :=
| RequestFailed (e : string)
| OtherFailure (e : string)
| Answered (result : reply).

Definition call_gemini_api (outcome : api_outcome) : string :=
  match outcome with
  | RequestFailed e => "API Error: " ++ e
  | OtherFailure e => "Error: " ++ e
  | Answered result =>
      match candidates result with
      | Some (first :: _) =>
          match content_of first with
          | Some c =>
              match parts c with
              | Some [] => "Error: list index out of range"
              | Some (p :: _) =>
                  match text p with
                  | Some t => t
                  | None => "Error: 'text'"
                  end
              | None => "Error: Could not generate response"
              end
          | None => "Error: Could not generate response"
          end
      | _ => "Error: Could not generate response"
      end
  end.

(** *** Requirements, drafts and revisions

    Each of the three methods builds a prompt, hands it to
    [call_gemini_api] and works on the string it gets back; that
    string is the argument [response]. *)

Definition fence_open : string := "```json".
Definition fence : string := "```".

(** The text handed to [json.loads] (the variable [json_str]). *)
Definition extract_json_str (response : string) : string :=
  if PyStr.contains fence_open response then
    let json_start := PyStr.find response fence_open + 7 in
    let json_end := PyStr.find_from response fence json_start in
    PyStr.strip (PyStr.slice response json_start json_end)
  else if PyStr.contains "{" response && PyStr.contains "}" response then
    let json_start := PyStr.find response "{" in
    let json_end := PyStr.rfind response "}" + 1 in
    PyStr.slice response json_start json_end
  else response.

(** The [dict] [process_requirements] returns.  The subject is
    whatever value the provider put under ["subject_suggestion"]. *)
Record requirements : Type := {
  context : string;
  subject : json
}.

Definition fallback_subject (brief : EmailBrief) : string :=
  "Regarding: " ++ PyStr.slice (purpose brief) 0 50 ++ "...".

(** The [except] branch. *)
Definition fallback_requirements (brief : EmailBrief) : requirements :=
  let subject := fallback_subject brief in
  {| context := dumps (JObj [("purpose", JStr (purpose brief));
                             ("subject_suggestion", JStr subject)]);
     subject := JStr subject |}.

Section Requirements.

(** [json.loads]; [None] when it raises. *)
Variable json_loads : string -> option json.

(** Only a [dict] has [.get]: any other decoded value raises inside
    the [try] and ends in the [except] branch as well. *)
Definition process_requirements (brief : EmailBrief) (response : string)
  : requirements :=
  match json_loads (extract_json_str response) with
  | Some (JObj parsed_context) =>
      {| context := dumps (JObj parsed_context);
         subject := dict_get parsed_context "subject_suggestion"
                      (JStr EmptyString) |}
  | _ => fallback_requirements brief
  end.

End Requirements.

Record draft_result : Type := {
  draft : string;
  draft_subject : string
}.

Definition create_draft (brief : EmailBrief) (context subject : string)
  (response : string) : draft_result :=
  {| draft := PyStr.strip response; draft_subject := subject |}.

Definition improve_draft (original_draft feedback : string)
  (brief : EmailBrief) (response : string) : string :=
  PyStr.strip response.

(** *** The store *)

(** A reading of [datetime.now()].  SQLite keeps it as ISO-8601 text,
    which compares as the instants do. *)
Definition timestamp : Type := Z.

(** One row of [email_history], with the columns of [setup_database];
    [final_email] is the only column the code leaves NULL. *)
Module Row.
Record t : Type := {
  id : string;
  thread_id : string;
  recipients : string;
  subject : string;
  purpose : string;
  tone : string;
  draft : string;
  final_email : option string;
  status : string;
  created_at : timestamp;
  updated_at : timestamp
}.
End Row.

Definition database : Type := list Row.t.

(** [CREATE TABLE IF NOT EXISTS]: a table that exists is kept. *)
Definition setup_database (existing : option database) : database :=
  match existing with
  | Some db => db
  | None => []
  end.

(** [INSERT OR REPLACE]: the row holding the primary key goes, the new
    row gets the next rowid.  [created] and [updated] are the two
    clock readings of the call. *)
Definition save_email (thread_id : string) (brief : EmailBrief)
  (subject draft status : string) (created updated : timestamp)
  (db : database) : database :=
  (filter (fun r => negb (String.eqb (Row.id r) thread_id)) db
  ++ [ {| Row.id := thread_id;
          Row.thread_id := thread_id;
          Row.recipients := dumps (JArr (map JStr (recipients brief)));
          Row.subject := subject;
          Row.purpose := purpose brief;
          Row.tone := tone brief;
          Row.draft := draft;
          Row.final_email := None;
          Row.status := status;
          Row.created_at := created;
          Row.updated_at := updated |} ])%list.

(** [json.dumps(final_email) if final_email else None]: an empty
    [dict] is false. *)
Definition final_email_json (final_email : option (list (string * json)))
  : option string :=
  match final_email with
  | Some (m :: ms) => Some (dumps (JObj (m :: ms)))
  | _ => None
  end.

(** The [SET] clause of [update_email_status] on one row. *)
Definition set_status (status : string) (final_email_json : option string)
  (now : timestamp) (r : Row.t) : Row.t :=
  {| Row.id := Row.id r;
     Row.thread_id := Row.thread_id r;
     Row.recipients := Row.recipients r;
     Row.subject := Row.subject r;
     Row.purpose := Row.purpose r;
     Row.tone := Row.tone r;
     Row.draft := Row.draft r;
     Row.final_email := final_email_json;
     Row.status := status;
     Row.created_at := Row.created_at r;
     Row.updated_at := now |}.

Fixpoint update_email_status (thread_id status : string)
  (final_email : option (list (string * json))) (now : timestamp)
  (db : database) : database :=
  match db with
  | [] => []
  | r :: db' =>
      (if String.eqb (Row.thread_id r) thread_id
       then set_status status (final_email_json final_email) now r
       else r)
      :: update_email_status thread_id status final_email now db'
  end.

(** [a] may stand before [b] in the history. *)
Definition newer_first (a b : Row.t) : Prop :=
  Row.created_at b <= Row.created_at a.

(** [ORDER BY created_at DESC], as a stable insertion sort. *)
Fixpoint insert_desc (r : Row.t) (sorted : list Row.t) : list Row.t :=
  match sorted with
  | [] => [r]
  | x :: rest =>
      if Row.created_at x <=? Row.created_at r
      then r :: sorted
      else x :: insert_desc r rest
  end.

Fixpoint order_by_created_at_desc (rows : list Row.t) : list Row.t :=
  match rows with
  | [] => []
  | r :: rest => insert_desc r (order_by_created_at_desc rest)
  end.

Definition get_email_history (db : database) : list Row.t :=
  order_by_created_at_desc db.

(** [fetchone] after [SELECT ... WHERE thread_id = ?]. *)
Fixpoint get_thread_by_id (thread_id : string) (db : database)
  : option Row.t :=
  match db with
  | [] => None
  | r :: db' =>
      if String.eqb (Row.thread_id r) thread_id then Some r
      else get_thread_by_id thread_id db'
  end.

(** The answer of the provider that carries the generated text [t]. *)
Definition generated (t : string) : api_outcome :=
  Answered {| candidates :=
                Some [ {| content_of :=
                            Some {| parts := Some [ {| text := Some t |} ] |}
                       |} ] |}.

(** A call of one of the two methods that write to the store. *)
Inductive store_call : Type :=
| Save (thread_id : string) (brief : EmailBrief)
       (subject draft status : string) (created updated : timestamp)
| Update (thread_id status : string)
         (final_email : option (list (string * json))) (now : timestamp).

Definition run_call (db : database) (c : store_call) : database :=
  match c with
  | Save thread_id brief subject draft status created updated =>
      save_email thread_id brief subject draft status created updated db
  | Update thread_id status final_email now =>
      update_email_status thread_id status final_email now db
  end.

(** The store after a sequence of calls on the empty table. *)
Definition run_calls (calls : list store_call) : database :=
  fold_left run_call calls (setup_database None).

(** Every row was written by [save_email], which gives the two key
    columns the same value. *)
Definition keys_agree (db : database) : Prop :=
  Forall (fun r => Row.id r = Row.thread_id r) db.

(** *** The provider call on an untyped body

    [response.json()] may give any JSON value, and lines 92 to 95 test
    and index it without looking at its type.  The four operations
    below are those steps on an arbitrary value; [None] stands for the
    exception Python raises. *)

(** [d[k]] on the items of a [dict]; [None] is the [KeyError]. *)
Fixpoint dict_find (d : list (string * json)) (k : string) : option json :=
  match d with
  | [] => None
  | (k', v') :: d' => if String.eqb k' k then Some v' else dict_find d' k
  end.

(** [k in x] for a string [k]: a key of a [dict], an element of a
    [list], a substring of a [str]; a [TypeError] on anything else. *)
Definition py_in (k : string) (x : json) : option bool :=
  match x with
  | JObj d => Some (match dict_find d k with Some _ => true | None => false end)
  | JArr items =>
      Some (existsb (fun v => match v with
                              | JStr s => String.eqb s k
                              | _ => false
                              end) items)
  | JStr s => Some (PyStr.contains k s)
  | _ => None
  end.

(** [x[k]] for a string [k]: the value of a [dict]; a [KeyError] or a
    [TypeError] otherwise. *)
Definition py_getitem (x : json) (k : string) : option json :=
  match x with
  | JObj d => dict_find d k
  | _ => None
  end.

(** [len(x)]. *)
Definition py_len (x : json) : option nat :=
  match x with
  | JObj d => Some (List.length d)
  | JArr items => Some (List.length items)
  | JStr s => Some (String.length s)
  | _ => None
  end.

(** [x[0]]: the first element of a [list], the first character of a
    [str]; an [IndexError] when they are empty, a [KeyError] on a
    [dict], whose keys are strings, a [TypeError] on anything else. *)
Definition py_first (x : json) : option json :=
  match x with
  | JArr (v :: _) => Some v
  | JStr (String c _) => Some (JStr (String c EmptyString))
  | _ => None
  end.

(** Lines 92 to 95: [Some (Some v)] when the [return] of line 95 is
    reached with the value [v], [Some None] when one of the tests is
    false, [None] when a step raises. *)
Definition find_text (result : json) : option (option json) :=
  match py_in "candidates" result with
  | None => None
  | Some false => Some None
  | Some true =>
      match py_getitem result "candidates" with
      | None => None
      | Some cands =>
          match py_len cands with
          | None => None
          | Some O => Some None
          | Some (S _) =>
              match py_first cands with
              | None => None
              | Some first =>
                  match py_in "content" first with
                  | None => None
                  | Some false => Some None
                  | Some true =>
                      match py_getitem first "content" with
                      | None => None
                      | Some c =>
                          match py_in "parts" c with
                          | None => None
                          | Some false => Some None
                          | Some true =>
                              match py_getitem c "parts" with
                              | None => None
                              | Some ps =>
                                  match py_first ps with
                                  | None => None
                                  | Some p =>
                                      match py_getitem p "text" with
                                      | None => None
                                      | Some v => Some (Some v)
                                      end
                                  end
                              end
                          end
                      end
                  end
              end
          end
      end
  end.

(** How the request ends, with the body as the JSON value it decodes
    to. *)
Inductive http_outcome : Type :=
| RequestRaised (e : string)
| OtherRaised (e : string)
| Decoded (result : json).

(** [call_gemini_api] on such an outcome.  The value returned is a
    Python value: a string, or whatever stands under ["text"].
    [raised] is the text of the exception when a step of lines 92 to 95
    raises. *)
Definition call_gemini_api_body (raised : string) (outcome : http_outcome)
  : json :=
  match outcome with
  | RequestRaised e => JStr ("API Error: " ++ e)
  | OtherRaised e => JStr ("Error: " ++ e)
  | Decoded result =>
      match find_text result with
      | Some (Some v) => v
      | Some None => JStr "Error: Could not generate response"
      | None => JStr ("Error: " ++ raised)
      end
  end.

(** The typed answers of [api_outcome] as JSON values. *)
Definition part_json (p : part) : json :=
  match text p with
  | Some t => JObj [("text", JStr t)]
  | None => JObj []
  end.

Definition content_json (c : content) : json :=
  match parts c with
  | Some ps => JObj [("parts", JArr (map part_json ps))]
  | None => JObj []
  end.

Definition candidate_json (c : candidate) : json :=
  match content_of c with
  | Some ct => JObj [("content", content_json ct)]
  | None => JObj []
  end.

Definition reply_json (r : reply) : json :=
  match candidates r with
  | Some cs => JObj [("candidates", JArr (map candidate_json cs))]
  | None => JObj []
  end.

Definition outcome_json (o : api_outcome) : http_outcome :=
  match o with
  | RequestFailed e => RequestRaised e
  | OtherFailure e => OtherRaised e
  | Answered r => Decoded (reply_json r)
  end.

End Backend.

(** ** [backend/email_service.py] *)

Module Mail.

Record smtp_config : Type := {
  smtp_server : string;
  smtp_port : Z;
  use_tls : bool
}.

Definition gmail : smtp_config :=
  {| smtp_server := "smtp.gmail.com"; smtp_port := 587; use_tls := true |}.
Definition outlook : smtp_config :=
  {| smtp_server := "smtp-mail.outlook.com"; smtp_port := 587;
     use_tls := true |}.
Definition yahoo : smtp_config :=
  {| smtp_server := "smtp.mail.yahoo.com"; smtp_port := 587;
     use_tls := true |}.

(** [configs.get(self.provider, configs["gmail"])]; [custom] is the
    entry read from the environment, [provider] is already lower
    case. *)
Definition _get_smtp_config (custom : smtp_config) (provider : string)
  : smtp_config :=
  if String.eqb provider "gmail" then gmail
  else if String.eqb provider "outlook" then outlook
  else if String.eqb provider "yahoo" then yahoo
  else if String.eqb provider "custom" then custom
  else gmail.

(** The result [dict] of [send_email]. *)
Record send_result : Type := {
  success : bool;
  message : string
}.

(** The MIME message handed to [sendmail]. *)
Record mime_message : Type := {
  header_subject : string;
  header_from : string;
  header_to : string;
  body_subtype : string;
  body_text : string
}.

(** One SMTP session: connect, STARTTLS when configured, login, one
    [sendmail]. *)
Record smtp_session : Type := {
  server : smtp_config;
  login_user : string;
  login_password : string;
  envelope_from : string;
  envelope_to : list string;
  payload : mime_message
}.

(** How the session ends: normally, or with the exception that leaves
    the [with] block. *)
Inductive smtp_outcome : Type :=
| Delivered
| SMTPAuthenticationError
| SMTPRecipientsRefused
| OtherError (e : string).

(** [a or b] on optional strings: [a] when it is a non-empty string. *)
Definition py_or (a b : option string) : option string :=
  match a with
  | Some (String c s) => Some (String c s)
  | _ => b
  end.

(** [not a]. *)
Definition py_not (a : option string) : bool :=
  match a with
  | Some (String _ _) => false
  | _ => true
  end.

Definition credentials_message : string :=
  "Email credentials not provided. Check EMAIL_USERNAME and EMAIL_PASSWORD in .env file".
Definition authentication_message : string :=
  "Email authentication failed. Check your email and password/app password.".
Definition recipients_message : string :=
  "One or more recipients were refused. Check email addresses.".

Section Service.

(** [self.smtp_config], the two environment variables and the mail
    transport. *)
Variable config : smtp_config.
Variable EMAIL_USERNAME EMAIL_PASSWORD : option string.
Variable smtp : smtp_session -> smtp_outcome.

(** The result, and the sessions that were attempted. *)
Definition send_email (subject body : string) (recipients : list string)
  (sender_email sender_password : option string) (is_html : bool)
  : send_result * list smtp_session :=
  let sender_email := py_or sender_email EMAIL_USERNAME in
  let sender_password := py_or sender_password EMAIL_PASSWORD in
  match sender_email, sender_password with
  | Some (String c1 u), Some (String c2 p) =>
      let user := String c1 u in
      let password := String c2 p in
      let session :=
        {| server := config;
           login_user := user;
           login_password := password;
           envelope_from := user;
           envelope_to := recipients;
           payload :=
             {| header_subject := subject;
                header_from := user;
                header_to := PyStr.join ", " recipients;
                body_subtype := if is_html then "html" else "plain";
                body_text := body |} |} in
      (match smtp session with
       | Delivered =>
           {| success := true;
              message := "Email sent successfully to "
                         ++ PyStr.of_nat (List.length recipients)
                         ++ " recipient(s)" |}
       | SMTPAuthenticationError =>
           {| success := false; message := authentication_message |}
       | SMTPRecipientsRefused =>
           {| success := false; message := recipients_message |}
       | OtherError e =>
           {| success := false; message := "Failed to send email: " ++ e |}
       end, [session])
  | _, _ =>
      ({| success := false; message := credentials_message |}, [])
  end.

End Service.

(** [EmailService(provider)]: the configuration kept in
    [self.smtp_config]. *)
Definition service_config (custom : smtp_config) (provider : string)
  : smtp_config :=
  _get_smtp_config custom (PyStr.lower provider).

Section Connection.

(** [self.smtp_config], [self.provider], the two environment variables
    and the SMTP server: [connect config user password] is [None] when
    connecting, STARTTLS and the login all succeed, and the text of the
    exception otherwise. *)
Variable config : smtp_config.
Variable provider : string.
Variable EMAIL_USERNAME EMAIL_PASSWORD : option string.
Variable connect : smtp_config -> string -> string -> option string.

(** The result, and the logins that were attempted. *)
Definition test_connection (sender_email sender_password : option string)
  : send_result * list (string * string) :=
  let sender_email := py_or sender_email EMAIL_USERNAME in
  let sender_password := py_or sender_password EMAIL_PASSWORD in
  match sender_email, sender_password with
  | Some (String c1 u), Some (String c2 p) =>
      let user := String c1 u in
      let password := String c2 p in
      (match connect config user password with
       | None =>
           {| success := true;
              message := "Successfully connected to " ++ provider
                         ++ " email server" |}
       | Some e =>
           {| success := false; message := "Connection failed: " ++ e |}
       end, [(user, password)])
  | _, _ =>
      ({| success := false; message := "Email credentials not provided" |},
       [])
  end.

End Connection.

End Mail.

(** ** [UltraSimpleEmailService.send_email]: the way to the mail service *)

Module Sending.
Import Mail.

(** How [from email_service import email_service] ends: the module is
    there, it is missing ([ImportError]), or loading it raises something
    else, whose text is kept. *)
Inductive import_outcome : Type :=
| Imported
| NoModule
| ImportRaised (e : string).

Section Wrapper.

Variable import : import_outcome.
Variable config : smtp_config.
Variable EMAIL_USERNAME EMAIL_PASSWORD : option string.
Variable smtp : smtp_session -> smtp_outcome.

Definition send_email (subject body : string) (recipients : list string)
  : send_result * list smtp_session :=
  match import with
  | Imported =>
      Mail.send_email config EMAIL_USERNAME EMAIL_PASSWORD smtp
        subject body recipients None None false
  | NoModule =>
      ({| success := false;
          message := "Email service not available. Create email_service.py file with your email configuration." |},
       [])
  | ImportRaised e =>
      ({| success := false; message := "Error sending email: " ++ e |}, [])
  end.

End Wrapper.

End Sending.

(** ** [frontend/ultra_simple_app.py]: the review form *)

Module App.
Import Json Backend.

(** The entries of [st.session_state] the review form works on. *)
Record session : Type := {
  current_draft : option string;
  current_subject : option string;
  current_brief : option EmailBrief;
  thread_id : string
}.

Definition with_content (s : session) (subject draft : string) : session :=
  {| current_draft := Some draft;
     current_subject := Some subject;
     current_brief := current_brief s;
     thread_id := thread_id s |}.

(** The buttons of the form that reach the backend, with what the
    outside world answers when they are clicked: the result of the
    delivery, the provider's response, the clock. *)
Inductive button : Type :=
| SendEmail (result : Mail.send_result) (now : timestamp)
| ApplyImprovements (feedback response : string)
| SaveDraft (created updated : timestamp).

(** One run of [show_review_form]: [new_subject] and [new_draft] are
    the contents of the two editable fields, [clicked] the button
    pressed, if any.  Without a draft the form stops at once; without
    a brief it stops at the preview. *)
Definition show_review_form (new_subject new_draft : string)
  (clicked : option button) (st : session * database)
  : session * database :=
  let (s, db) := st in
  match current_draft s with
  | Some (String _ _) =>
      let s1 := with_content s new_subject new_draft in
      match current_brief s1, clicked with
      | Some brief, Some (SendEmail result now) =>
          match PyStr.strip new_subject, PyStr.strip new_draft with
          | String _ _, String _ _ =>
              if Mail.success result then
                (s1, update_email_status (thread_id s1) "sent"
                       (Some [("subject", JStr new_subject);
                              ("body", JStr new_draft);
                              ("recipients",
                                JArr (map JStr (recipients brief)))])
                       now db)
              else (s1, db)
          | _, _ => (s1, db)
          end
      | Some brief, Some (ApplyImprovements feedback response) =>
          match PyStr.strip feedback with
          | String _ _ =>
              (with_content s1 new_subject
                 (improve_draft new_draft feedback brief response), db)
          | EmptyString => (s1, db)
          end
      | Some brief, Some (SaveDraft created updated) =>
          (s1, save_email (thread_id s1) brief new_subject new_draft
                 "saved" created updated db)
      | _, _ => (s1, db)
      end
  | _ => st
  end.

(** A revision of the draft: an edit by hand, or an improvement asked
    from the provider. *)
Inductive revision : Type :=
| Edit (new_subject new_draft : string)
| Improve (new_subject new_draft feedback response : string).

Definition revise (st : session * database) (r : revision)
  : session * database :=
  match r with
  | Edit new_subject new_draft =>
      show_review_form new_subject new_draft None st
  | Improve new_subject new_draft feedback response =>
      show_review_form new_subject new_draft
        (Some (ApplyImprovements feedback response)) st
  end.

(** The recipients typed into the creation form, one per line: every
    line is stripped and the blank ones are left out. *)
Definition parse_recipients (recipients : string) : list string :=
  filter (fun e => match e with EmptyString => false | _ => true end)
    (map PyStr.strip (PyStr.split "010" recipients)).

(** The brief [show_create_form] builds when "Create Email Draft" is
    pressed; [None] when the form stops at one of its two error
    messages. *)
Definition create_brief (recipients purpose tone constraints : string)
  : option EmailBrief :=
  match PyStr.strip recipients, PyStr.strip purpose with
  | String _ _, String _ _ =>
      Some {| Backend.recipients := parse_recipients recipients;
              purpose := purpose;
              tone := tone;
              constraints := match constraints with
                             | EmptyString => None
                             | _ => Some constraints
                             end |}
  | _, _ => None
  end.

(** The side bar lists [history[:5]]. *)
Definition sidebar_history (db : database) : list Row.t :=
  firstn 5 (get_email_history db).

(** The button "Load" of a listed record: draft, subject and thread id
    come from the record, the brief of the session stays. *)
Definition load (email : Row.t) (s : session) : session :=
  {| current_draft := Some (Row.draft email);
     current_subject := Some (Row.subject email);
     current_brief := current_brief s;
     thread_id := Row.thread_id email |}.

End App.

(** ** The design document's vocabulary

  The states and transitions of its section 4.2 and the reading of
  its section 4.1, written from the document so that the code can be
  compared with them. *)

Module Design.
Import Backend.

Inductive WorkflowStatus : Type :=
| created | context_ready | draft_ready | revision_requested
| approved | sent | send_failed | rejected.

Inductive transition : Type :=
| approveContext | requestChanges | editDraft | approveDraft
| send | retrySend | reject.

(** The states a transition may be invoked from. *)
Definition permitted (t : transition) (s : WorkflowStatus) : bool :=
  match t, s with
  | approveContext, context_ready => true
  | requestChanges, draft_ready => true
  | editDraft, draft_ready => true
  | approveDraft, draft_ready => true
  | send, approved => true
  | retrySend, send_failed => true
  | reject, context_ready => true
  | reject, draft_ready => true
  | _, _ => false
  end.

(** The state a transition ends in when it succeeds. *)
Definition target (t : transition) : WorkflowStatus :=
  match t with
  | approveContext => draft_ready
  | requestChanges => draft_ready
  | editDraft => draft_ready
  | approveDraft => approved
  | send => sent
  | retrySend => sent
  | reject => rejected
  end.

(** The text stored in the [status] column. *)
Definition status_name (s : WorkflowStatus) : string :=
  match s with
  | created => "created"
  | context_ready => "context_ready"
  | draft_ready => "draft_ready"
  | revision_requested => "revision_requested"
  | approved => "approved"
  | sent => "sent"
  | send_failed => "send_failed"
  | rejected => "rejected"
  end.

(** [mid] is the content strictly between the first opening fence of
    [response] and the next closing fence. *)
Definition between_fences (response mid : string) : Prop :=
  exists pre post,
    response = pre ++ fence_open ++ mid ++ fence ++ post
    /\ index 0 fence_open (pre ++ fence_open) = Some (String.length pre)
    /\ index 0 fence (mid ++ fence) = Some (String.length mid).

(** [response] has no opening fence, its first opening brace comes
    after [pre] and its last closing brace before [post]. *)
Definition between_braces (response pre mid post : string) : Prop :=
  response = pre ++ "{" ++ mid ++ "}" ++ post
  /\ index 0 fence_open response = None
  /\ index 0 "{" pre = None
  /\ index 0 "}" post = None.

(** [response] has no opening fence and lacks one of the braces. *)
Definition unmarked (response : string) : Prop :=
  index 0 fence_open response = None
  /\ (index 0 "{" response = None \/ index 0 "}" response = None).

(** [final_email] is set exactly in the states [sent] and
    [send_failed]. *)
Definition final_status (status : string) : bool :=
  String.eqb status "sent" || String.eqb status "send_failed".

Definition final_email_invariant (db : database) : Prop :=
  forall r, In r db ->
    (Row.final_email r <> None <-> final_status (Row.status r) = true).

(** A transition invoked from a state that does not permit it leaves
    the persisted records as they are. *)
Definition rejects_invalid_transitions : Prop :=
  forall (t : transition) (s : WorkflowStatus) thread_id final_email now db r,
    get_thread_by_id thread_id db = Some r ->
    Row.status r = status_name s ->
    permitted t s = false ->
    update_email_status thread_id (status_name (target t)) final_email now db
    = db.

(** [rev] reads a revision number off a persisted record, and every
    revision of the draft makes it grow. *)
Definition records_revisions (rev : Row.t -> nat) : Prop :=
  forall (st : App.session * database) (revision : App.revision) r0 r1,
    get_thread_by_id (App.thread_id (fst st)) (snd st) = Some r0 ->
    get_thread_by_id (App.thread_id (fst st)) (snd (App.revise st revision))
    = Some r1 ->
    (rev r0 < rev r1)%nat.

(** The caller can tell a failure of the provider from a generated
    text by looking at what [call_gemini_api] returns. *)
Definition failure_distinguishable : Prop :=
  exists is_error : string -> bool,
    (forall e, is_error (call_gemini_api (RequestFailed e)) = true)
    /\ (forall t, is_error (call_gemini_api (generated t)) = false).

(** The pairing of status and final email the invariant asks of a
    call. *)
Definition pairs_final_email (c : store_call) : bool :=
  match c with
  | Save _ _ _ _ status _ _ => negb (final_status status)
  | Update _ status final_email _ =>
      Bool.eqb (final_status status)
               (match final_email with Some (_ :: _) => true | _ => false end)
  end.

(** A response with a fenced block. *)
Definition fenced_example : string :=
  "Here it is: ```json
{}
``` Anything else?".

End Design.

(** ** Sample data for the worked instances *)

Module Samples.
Import Json Backend.

Definition sample_brief : EmailBrief :=
  {| recipients := ["a@x.com"; "b@y.org"];
     purpose := "Schedule a meeting";
     tone := "professional";
     constraints := None |}.

Definition sample_store : database :=
  run_calls [Save "t1" sample_brief "Meeting" "Hello" "draft" 1 2;
             Update "t1" "sent"
               (Some [("subject", JStr "Meeting"); ("body", JStr "Hello");
                      ("recipients", JArr [JStr "a@x.com"; JStr "b@y.org"])])
               3;
             Save "t2" sample_brief "Other" "Hi" "draft" 4 5].

(** The [dict] the review form passes as final email. *)
Definition final_email_of (subject body : string) (recipients : list string)
  : list (string * json) :=
  [("subject", JStr subject); ("body", JStr body);
   ("recipients", JArr (map JStr recipients))].

Definition sample_session : App.session :=
  {| App.current_draft := Some "Hello";
     App.current_subject := Some "Meeting";
     App.current_brief := Some sample_brief;
     App.thread_id := "t2" |}.

Definition other_brief : EmailBrief :=
  {| recipients := ["c@z.net"];
     purpose := "Cancel the order";
     tone := "urgent";
     constraints := None |}.

(** An answer of the provider with the three keys the prompt asks
    for. *)
Definition requirements_answer (purpose subject : string)
  (rules : list string) : list (string * json) :=
  [("purpose", JStr purpose); ("subject_suggestion", JStr subject);
   ("constraints", JArr (map JStr rules))].

(** A custom SMTP configuration. *)
Definition sample_custom : Mail.smtp_config :=
  {| Mail.smtp_server := "mail.example.org";
     Mail.smtp_port := 25;
     Mail.use_tls := false |}.

(** A session left over from another thread. *)
Definition stale_session : App.session :=
  {| App.current_draft := None;
     App.current_subject := None;
     App.current_brief := Some other_brief;
     App.thread_id := "t7" |}.

(** The record of the thread t2 in [sample_store]. *)
Definition sample_row : Row.t :=
  {| Row.id := "t2";
     Row.thread_id := "t2";
     Row.recipients := dumps (JArr (map JStr (recipients sample_brief)));
     Row.subject := "Other";
     Row.purpose := "Schedule a meeting";
     Row.tone := "professional";
     Row.draft := "Hi";
     Row.final_email := None;
     Row.status := "draft";
     Row.created_at := 4;
     Row.updated_at := 5 |}.

End Samples.

(** * Facts about the string primitives *)

Section StringFacts.

Lemma prefix_append (p r : string) : prefix p (p ++ r) = true.
Proof.
  induction p as [|a p IH]; simpl; [now destruct r|].
  destruct (ascii_dec a a); [exact IH | congruence].
Qed.

(** Appending to a string that is already as long as [p] does not
    change whether [p] starts it. *)
Lemma prefix_append_long (p : string) :
  forall x r, (String.length p <= String.length x)%nat ->
              prefix p (x ++ r) = prefix p x.
Proof.
  induction p as [|a p IH]; intros x r Hlen.
  - now destruct x, r.
  - destruct x as [|b x]; simpl in *; [lia|].
    destruct (ascii_dec a b); [apply IH; lia | reflexivity].
Qed.

Lemma length_append (a b : string) :
  String.length (a ++ b) = (String.length a + String.length b)%nat.
Proof. induction a; simpl; congruence. Qed.

Lemma append_assoc (a b c : string) : (a ++ b) ++ c = a ++ b ++ c.
Proof. induction a; simpl; congruence. Qed.

Lemma index_0_cons (sub : string) (c : ascii) (s : string) :
  index 0 sub (String c s) =
  if prefix sub (String c s) then Some 0%nat
  else match index 0 sub s with Some n => Some (S n) | None => None end.
Proof. reflexivity. Qed.

(** The first occurrence of [sub] stays the first one when text is
    added after it. *)
Lemma index_first_append (sub : string) :
  forall pre rest,
    index 0 sub (pre ++ sub) = Some (String.length pre) ->
    index 0 sub (pre ++ sub ++ rest) = Some (String.length pre).
Proof.
  induction pre as [|c pre IH]; intros rest H.
  - simpl. destruct sub as [|a sub]; simpl; [now destruct rest|].
    destruct (ascii_dec a a); [|congruence].
    now rewrite prefix_append.
  - change (String c pre ++ sub ++ rest) with (String c (pre ++ sub ++ rest)).
    change (String c pre ++ sub) with (String c (pre ++ sub)) in H.
    rewrite index_0_cons in H |- *.
    replace (String c (pre ++ sub ++ rest))
      with (String c (pre ++ sub) ++ rest)
      by (simpl; now rewrite append_assoc).
    rewrite prefix_append_long
      by (simpl; rewrite length_append; lia).
    destruct (prefix sub (String c (pre ++ sub))); [discriminate|].
    simpl String.length in H.
    destruct (index 0 sub (pre ++ sub)) as [n|] eqn:E; [|discriminate].
    injection H as ->.
    now rewrite (IH rest eq_refl).
Qed.

(** Searching from the end of [a] is searching in what follows. *)
Lemma index_skip (sub : string) :
  forall a s,
    index (String.length a) sub (a ++ s) =
    option_map (Nat.add (String.length a)) (index 0 sub s).
Proof.
  induction a as [|c a IH]; intros s; simpl.
  - destruct (index 0 sub s); reflexivity.
  - rewrite IH. destruct (index 0 sub s); reflexivity.
Qed.

Lemma substring_append_exact (m : string) :
  forall b, substring 0 (String.length m) (m ++ b) = m.
Proof.
  induction m as [|c m IH]; intros b; simpl.
  - destruct b; reflexivity.
  - now rewrite IH.
Qed.

Lemma substring_skip (a : string) :
  forall n s, substring (String.length a) n (a ++ s) = substring 0 n s.
Proof. induction a as [|c a IH]; intros n s; simpl; [reflexivity | apply IH]. Qed.

(** Slicing out the middle of a concatenation. *)
Lemma slice_middle (a m b : string) :
  PyStr.slice (a ++ m ++ b) (PyStr.len a) (PyStr.len a + PyStr.len m) = m.
Proof.
  unfold PyStr.slice, PyStr.clamp_index, PyStr.len.
  rewrite !length_append.
  assert (Ha : (Z.of_nat (String.length a) <? 0) = false) by (apply Z.ltb_ge; lia).
  assert (Hb : (Z.of_nat (String.length a) + Z.of_nat (String.length m) <? 0) = false)
    by (apply Z.ltb_ge; lia).
  rewrite Ha, Hb.
  rewrite !Z.min_l by lia.
  replace (Z.of_nat (String.length a) + Z.of_nat (String.length m)
           - Z.of_nat (String.length a)) with (Z.of_nat (String.length m)) by lia.
  rewrite !Nat2Z.id.
  rewrite substring_skip. apply substring_append_exact.
Qed.

Lemma prefix_nil (s : string) : prefix EmptyString s = true.
Proof. now destruct s. Qed.

Lemma prefix_char (c d : ascii) (s : string) :
  prefix (String c EmptyString) (String d s)
  = if ascii_dec c d then true else false.
Proof. simpl. destruct (ascii_dec c d); [apply prefix_nil | reflexivity]. Qed.

(** A character absent from [pre] first occurs right after it. *)
Lemma index_char_first (c : ascii) :
  forall pre rest,
    index 0 (String c EmptyString) pre = None ->
    index 0 (String c EmptyString) (pre ++ String c rest)
    = Some (String.length pre).
Proof.
  induction pre as [|d pre IH]; intros rest H; cbn [append String.length].
  - rewrite index_0_cons, prefix_char.
    destruct (ascii_dec c c); [reflexivity | congruence].
  - rewrite index_0_cons, prefix_char in H |- *.
    destruct (ascii_dec c d); [discriminate|].
    destruct (index 0 (String c EmptyString) pre) eqn:E; [discriminate|].
    now rewrite (IH rest eq_refl).
Qed.

Lemma rindex_cons (sub : string) (d : ascii) (s : string) :
  PyStr.rindex sub (String d s) =
  match PyStr.rindex sub s with
  | Some i => Some (S i)
  | None => if prefix sub (String d s) then Some 0%nat else None
  end.
Proof. reflexivity. Qed.

(** A character absent from [post] last occurs right before it. *)
Lemma rindex_char_last (c : ascii) :
  forall x post,
    PyStr.rindex (String c EmptyString) post = None ->
    PyStr.rindex (String c EmptyString) (x ++ String c post)
    = Some (String.length x).
Proof.
  induction x as [|d x IH]; intros post H; cbn [append String.length].
  - rewrite rindex_cons, H, prefix_char.
    destruct (ascii_dec c c); [reflexivity | congruence].
  - rewrite rindex_cons. now rewrite (IH post H).
Qed.

(** For a single character, [index] and [rindex] agree on absence. *)
Lemma rindex_char_none (c : ascii) :
  forall s, index 0 (String c EmptyString) s = None ->
            PyStr.rindex (String c EmptyString) s = None.
Proof.
  induction s as [|d s IH]; intros H.
  - reflexivity.
  - rewrite index_0_cons, prefix_char in H. rewrite rindex_cons, prefix_char.
    destruct (ascii_dec c d); [discriminate|].
    destruct (index 0 (String c EmptyString) s); [discriminate|].
    now rewrite IH.
Qed.

End StringFacts.

(** * The extraction of the JSON payload *)

(** Lengths of concatenations. *)
Ltac len_solve :=
unfold PyStr.len, Backend.fence_open, Backend.fence;
repeat (rewrite length_append || cbn [String.length append]);
lia.

Section Extraction.
Import Backend.

Lemma clamp_index_inside (i n : Z) : 0 <= i <= n -> PyStr.clamp_index i n = i.
Proof.
  intros H. unfold PyStr.clamp_index.
  destruct (i <? 0) eqn:E; [apply Z.ltb_lt in E; lia | lia].
Qed.

Lemma find_first (sub pre rest : string) :
  index 0 sub (pre ++ sub) = Some (String.length pre) ->
  PyStr.find (pre ++ sub ++ rest) sub = PyStr.len pre.
Proof.
  intros H. unfold PyStr.find, PyStr.find_from.
  rewrite clamp_index_inside by (unfold PyStr.len; lia).
  change (Z.to_nat 0) with 0%nat.
  now rewrite (index_first_append sub pre rest H).
Qed.

Lemma find_from_after (sub a mid rest : string) :
  index 0 sub (mid ++ sub) = Some (String.length mid) ->
  PyStr.find_from (a ++ mid ++ sub ++ rest) sub (PyStr.len a)
  = PyStr.len a + PyStr.len mid.
Proof.
  intros H. unfold PyStr.find_from.
  rewrite clamp_index_inside
    by (unfold PyStr.len; rewrite length_append; lia).
  unfold PyStr.len. rewrite Nat2Z.id, index_skip.
  rewrite (index_first_append sub mid rest H). simpl. lia.
Qed.

Lemma contains_first (sub pre rest : string) :
  index 0 sub (pre ++ sub) = Some (String.length pre) ->
  PyStr.contains sub (pre ++ sub ++ rest) = true.
Proof.
  intros H. unfold PyStr.contains.
  now rewrite (index_first_append sub pre rest H).
Qed.

Lemma contains_absent (sub s : string) :
  index 0 sub s = None -> PyStr.contains sub s = false.
Proof. intros H. unfold PyStr.contains. now rewrite H. Qed.

(** With a closed fenced block, the payload is what stands between
    the fences, stripped. *)
Lemma extract_fenced (response mid : string) :
  Design.between_fences response mid ->
  extract_json_str response = PyStr.strip mid.
Proof.
  intros (pre & post & -> & Hopen & Hclose).
  unfold extract_json_str.
  rewrite (contains_first _ _ _ Hopen), (find_first _ _ _ Hopen).
  assert (Hstart : PyStr.len pre + 7 = PyStr.len (pre ++ fence_open)).
  { len_solve. }
  rewrite Hstart, <- (append_assoc pre fence_open).
  rewrite (find_from_after _ _ _ _ Hclose).
  now rewrite slice_middle.
Qed.

(** Without a fence, the payload runs from the first opening brace to
    the last closing brace, both included. *)
Lemma extract_braces (response pre mid post : string) :
  Design.between_braces response pre mid post ->
  extract_json_str response = "{" ++ mid ++ "}".
Proof.
  intros (-> & Hnofence & Hpre & Hpost).
  unfold extract_json_str.
  rewrite (contains_absent _ _ Hnofence).
  assert (Hfirst : index 0 "{" (pre ++ "{" ++ mid ++ "}" ++ post)
                   = Some (String.length pre))
    by exact (index_char_first "{" pre _ Hpre).
  assert (Hlast : PyStr.rindex "}" (pre ++ "{" ++ mid ++ "}" ++ post)
                  = Some (String.length (pre ++ "{" ++ mid))).
  { replace (pre ++ "{" ++ mid ++ "}" ++ post)
      with ((pre ++ "{" ++ mid) ++ String "}" post)
      by (now rewrite !append_assoc).
    apply rindex_char_last, rindex_char_none, Hpost. }
  assert (Hclose : PyStr.contains "}" (pre ++ "{" ++ mid ++ "}" ++ post) = true).
  { unfold PyStr.contains.
    destruct (index 0 "}" (pre ++ "{" ++ mid ++ "}" ++ post)) eqn:E;
      [reflexivity|].
    apply rindex_char_none in E. congruence. }
  unfold PyStr.contains at 1. rewrite Hfirst, Hclose. cbn [andb].
  unfold PyStr.find, PyStr.find_from, PyStr.rfind.
  rewrite clamp_index_inside by (unfold PyStr.len; lia).
  change (Z.to_nat 0) with 0%nat. rewrite Hfirst, Hlast.
  replace (Z.of_nat (String.length (pre ++ "{" ++ mid)) + 1)
    with (PyStr.len pre + PyStr.len ("{" ++ mid ++ "}"))
    by len_solve.
  replace (pre ++ "{" ++ mid ++ "}" ++ post)
    with (pre ++ ("{" ++ mid ++ "}") ++ post)
    by (now rewrite !append_assoc).
  apply slice_middle.
Qed.

(** Without a fence and without the two braces, the payload is the
    whole response. *)
Lemma extract_unmarked (response : string) :
  Design.unmarked response -> extract_json_str response = response.
Proof.
  intros (Hnofence & Hbrace). unfold extract_json_str.
  rewrite (contains_absent _ _ Hnofence).
  destruct Hbrace as [H | H]; rewrite (contains_absent _ _ H);
    [reflexivity | now rewrite andb_false_r].
Qed.

(** C2, as amended.  A response whose opening fence is closed by a
    later fence gives the content between the first opening fence and
    the next closing fence, with the white space around it removed,
    whatever braces it holds.  A response with no opening fence at all
    gives the text from its first opening brace to its last closing
    brace when a closing brace follows the first opening brace, and
    the whole response when it lacks one of the two braces.  Nothing is
    said of a response whose opening fence is never closed, nor of one
    whose closing braces all stand before the first opening brace. *)
Theorem extract_json_str_priority (response : string) :
  (forall mid, Design.between_fences response mid ->
               extract_json_str response = PyStr.strip mid)
  /\ (forall pre mid post, Design.between_braces response pre mid post ->
                           extract_json_str response = "{" ++ mid ++ "}")
  /\ (Design.unmarked response -> extract_json_str response = response).
Proof.
  split; [|split].
  - apply extract_fenced.
  - apply extract_braces.
  - apply extract_unmarked.
Qed.

Lemma fenced_example_between :
  Design.between_fences Design.fenced_example "
{}
".
Proof. exists "Here it is: ", " Anything else?". repeat split. Defined.

Lemma extract_json_str_priority_witness :
  extract_json_str Design.fenced_example = "{}"
  /\ extract_json_str "Sure: {1} and {2}. Done" = "{1} and {2}"
  /\ extract_json_str "I cannot help with that" = "I cannot help with that".
Proof.
  split; [|split].
  - exact (proj1 (extract_json_str_priority Design.fenced_example) _
             fenced_example_between).
  - apply (proj1 (proj2 (extract_json_str_priority _)) "Sure: " "1} and {2" ". Done").
    repeat split.
  - apply (proj2 (proj2 (extract_json_str_priority _))).
    split; [reflexivity | left; reflexivity].
Defined.

(** C2, as stated, fails: the content between the fences is not
    handed over as it stands, the white space around it is dropped. *)
Lemma fenced_payload_is_stripped :
  ~ (forall response mid,
        Design.between_fences response mid ->
        extract_json_str response = mid).
Proof.
  intros H. specialize (H _ _ fenced_example_between).
  vm_compute in H. discriminate H.
Qed.

(** Without a closing fence [find] answers [-1], and the slice ends
    one character before the end of the response. *)
Example extract_unclosed_fence :
  extract_json_str "```json {1}" = "{1".
Proof. reflexivity. Qed.

(** When every closing brace stands before the first opening brace
    the payload is empty. *)
Example extract_crossed_braces : extract_json_str "} and {" = "".
Proof. reflexivity. Qed.

End Extraction.

(** * [json.loads] undoes [json.dumps] on what the program stores *)

Section JsonFacts.
Import Json.

(** Reading back one escaped character. *)
Lemma scan_escape_char (c : ascii) (rest : string) :
  scan_string (escape_char c ++ rest) = cons_str c (scan_string rest).
Proof. destruct c as [[] [] [] [] [] [] [] []]; reflexivity. Qed.

Lemma scan_string_escape (s : string) :
  forall rest, scan_string (escape s ++ String quote rest) = Some (s, rest).
Proof.
  induction s as [|c s IH]; intros rest.
  - reflexivity.
  - cbn [escape]. rewrite append_assoc, scan_escape_char, IH. reflexivity.
Qed.

Lemma dumps_str_append (s rest : string) :
  dumps_str s ++ rest = String quote (escape s ++ String quote rest).
Proof. unfold dumps_str. cbn [append]. now rewrite append_assoc. Qed.

Lemma parse_value_string (fuel : nat) (s rest : string) :
  parse_value (S fuel) (dumps_str s ++ rest) = Some (JStr s, rest).
Proof.
  rewrite dumps_str_append. cbn [parse_value].
  change (Ascii.eqb quote quote) with true. cbn iota.
  now rewrite scan_string_escape.
Qed.

Lemma skip_ws_quote (r : string) : skip_ws (String quote r) = String quote r.
Proof. reflexivity. Qed.

Lemma join_cons2 (sep x y : string) (l : list string) :
  PyStr.join sep (x :: y :: l) = x ++ sep ++ PyStr.join sep (y :: l).
Proof. reflexivity. Qed.

Lemma join_starts_quote (y : string) (l : list string) (r : string) :
  exists t, PyStr.join ", " (map dumps_str (y :: l)) ++ r = String quote t.
Proof.
  destruct l as [|z l]; cbn [map].
  - cbn [PyStr.join]. rewrite dumps_str_append. eauto.
  - rewrite join_cons2, append_assoc, dumps_str_append. eauto.
Qed.

Lemma parse_elems_step (fuel : nat) (s : string) :
  parse_elems (S fuel) s =
  match parse_value fuel s with
  | None => None
  | Some (v, r) =>
      match skip_ws r with
      | String d r' =>
          if Ascii.eqb d "]" then Some ([v], r')
          else if Ascii.eqb d "," then
            match parse_elems fuel (skip_ws r') with
            | Some (vs, r'') => Some (v :: vs, r'')
            | None => None
            end
          else None
      | EmptyString => None
      end
  end.
Proof. reflexivity. Qed.

(** The elements of an array of strings, read back after the opening
    bracket. *)
Lemma parse_elems_strings :
  forall (l : list string) (x : string) (fuel : nat) (rest : string),
    (List.length l + 2 <= fuel)%nat ->
    parse_elems fuel
      (PyStr.join ", " (map dumps_str (x :: l)) ++ String "]" rest)
    = Some (map JStr (x :: l), rest).
Proof.
  induction l as [|y l IH]; intros x fuel rest Hfuel.
  - destruct fuel as [|[|fuel]]; [simpl in Hfuel; lia .. |].
    cbn [map PyStr.join]. rewrite parse_elems_step, parse_value_string.
    reflexivity.
  - destruct fuel as [|[|fuel]]; [simpl in Hfuel; lia .. |].
    cbn [map]. rewrite join_cons2, !append_assoc.
    rewrite parse_elems_step, parse_value_string.
    change (", " ++ PyStr.join ", " (dumps_str y :: map dumps_str l)
              ++ String "]" rest)
      with (String "," (String " "
              (PyStr.join ", " (map dumps_str (y :: l)) ++ String "]" rest))).
    change (skip_ws (String "," ?r)) with (String "," r).
    cbv beta iota.
    change (Ascii.eqb "," "]") with false.
    change (Ascii.eqb "," ",") with true.
    cbv beta iota.
    change (skip_ws (String " " ?r)) with (skip_ws r).
    destruct (join_starts_quote y l (String "]" rest)) as [t Et].
    rewrite Et, skip_ws_quote, <- Et.
    rewrite (IH y (S fuel) rest) by (simpl in Hfuel |- *; lia).
    reflexivity.
Qed.

Lemma parse_value_array (fuel : nat) (rest : string) :
  parse_value (S fuel) (String "[" rest) =
  match skip_ws rest with
  | String d r =>
      if Ascii.eqb d "]" then Some (JArr [], r)
      else
        match parse_elems fuel (String d r) with
        | Some (vs, r') => Some (JArr vs, r')
        | None => None
        end
  | EmptyString => None
  end.
Proof. reflexivity. Qed.

Lemma length_dumps_str (s : string) : (2 <= String.length (dumps_str s))%nat.
Proof. unfold dumps_str. cbn [String.length]. rewrite length_append. simpl. lia. Qed.

Lemma length_join_strings (l : list string) :
  (List.length l <= String.length (PyStr.join ", " (map dumps_str l)))%nat.
Proof.
  induction l as [|x [|y l] IH].
  - simpl. lia.
  - cbn [map PyStr.join List.length]. pose proof (length_dumps_str x). lia.
  - cbn [map] in *. rewrite join_cons2, !length_append.
    cbn [List.length] in *. pose proof (length_dumps_str x). lia.
Qed.

Lemma dumps_string_array (l : list string) :
  dumps (JArr (map JStr l))
  = String "[" (PyStr.join ", " (map dumps_str l) ++ "]").
Proof.
  cbn [dumps]. rewrite map_map. reflexivity.
Qed.

(** A list of strings written by [json.dumps] is read back by
    [json.loads] as the same list, in the same order. *)
Lemma loads_dumps_strings (l : list string) :
  loads (dumps (JArr (map JStr l))) = Some (JArr (map JStr l)).
Proof.
  rewrite dumps_string_array. unfold loads.
  change (skip_ws (String "[" ?r)) with (String "[" r).
  cbn [String.length].
  replace (2 * S (String.length (PyStr.join ", " (map dumps_str l) ++ "]")) + 2)%nat
    with (S (S (String.length (PyStr.join ", " (map dumps_str l)) + 
                (String.length (PyStr.join ", " (map dumps_str l)) + 4))))
    by (rewrite length_append; simpl; lia).
  rewrite parse_value_array.
  destruct l as [|x l].
  - reflexivity.
  - destruct (join_starts_quote x l "]") as [t Et].
    rewrite Et, skip_ws_quote. change (Ascii.eqb quote "]") with false.
    cbv beta iota. rewrite <- Et.
    rewrite parse_elems_strings.
    + reflexivity.
    + pose proof (length_join_strings (x :: l)) as H.
      cbn [List.length] in H. lia.
Qed.

Lemma parse_members_step (fuel : nat) (acc : list (string * json))
  (rest : string) :
  parse_members (S fuel) acc (String quote rest) =
  match scan_string rest with
  | None => None
  | Some (k, r) =>
      match skip_ws r with
      | String d r' =>
          if Ascii.eqb d ":" then
            match parse_value fuel (skip_ws r') with
            | None => None
            | Some (v, r'') =>
                let acc' := dict_set k v acc in
                match skip_ws r'' with
                | String e r3 =>
                    if Ascii.eqb e "}" then Some (acc', r3)
                    else if Ascii.eqb e "," then
                      parse_members fuel acc' (skip_ws r3)
                    else None
                | EmptyString => None
                end
            end
          else None
      | EmptyString => None
      end
  end.
Proof. reflexivity. Qed.

(** One member whose value is a string, read back. *)
Lemma parse_member_string (fuel : nat) (acc : list (string * json))
  (k v rest : string) :
  parse_members (S (S fuel)) acc (dumps_str k ++ ": " ++ dumps_str v ++ rest)
  = match skip_ws rest with
    | String e r3 =>
        if Ascii.eqb e "}" then Some (dict_set k (JStr v) acc, r3)
        else if Ascii.eqb e "," then
          parse_members (S fuel) (dict_set k (JStr v) acc) (skip_ws r3)
        else None
    | EmptyString => None
    end.
Proof.
  rewrite dumps_str_append, parse_members_step, scan_string_escape.
  change (skip_ws (": " ++ dumps_str v ++ rest))
    with (String ":" (String " " (dumps_str v ++ rest))).
  cbv beta iota. change (Ascii.eqb ":" ":") with true. cbv beta iota.
  change (skip_ws (String " " ?r)) with (skip_ws r).
  rewrite dumps_str_append, skip_ws_quote, <- dumps_str_append.
  rewrite parse_value_string. reflexivity.
Qed.

Lemma parse_value_object (fuel : nat) (rest : string) :
  parse_value (S fuel) (String "{" rest) =
  match skip_ws rest with
  | String d r =>
      if Ascii.eqb d "}" then Some (JObj [], r)
      else
        match parse_members fuel [] (String d r) with
        | Some (ms, r') => Some (JObj ms, r')
        | None => None
        end
  | EmptyString => None
  end.
Proof. reflexivity. Qed.

(** A [dict] with two string values under distinct keys, written by
    [json.dumps], is read back by [json.loads]. *)
Lemma loads_dumps_two_strings (k1 k2 v1 v2 : string) :
  String.eqb k1 k2 = false ->
  loads (dumps (JObj [(k1, JStr v1); (k2, JStr v2)]))
  = Some (JObj [(k1, JStr v1); (k2, JStr v2)]).
Proof.
  intros Hk. cbn [dumps map PyStr.join].
  change ("{" ++ ?x) with (String "{" x).
  unfold loads. change (skip_ws (String "{" ?r)) with (String "{" r).
  cbn [String.length].
  set (body := ((dumps_str k1 ++ ": " ++ dumps_str v1) ++ ", " ++
                dumps_str k2 ++ ": " ++ dumps_str v2) ++ "}").
  replace (2 * S (String.length body) + 2)%nat
    with (S (S (S (S (2 * String.length body))))) by lia.
  rewrite parse_value_object. subst body.
  rewrite !append_assoc, dumps_str_append, skip_ws_quote.
  change (Ascii.eqb quote "}") with false. cbv beta iota.
  rewrite <- dumps_str_append.
  rewrite parse_member_string.
  change (skip_ws (", " ++ ?r)) with (String "," (String " " r)).
  cbv beta iota. change (Ascii.eqb "," "}") with false.
  change (Ascii.eqb "," ",") with true. cbv beta iota.
  change (skip_ws (String " " ?r)) with (skip_ws r).
  rewrite (dumps_str_append k2 (": " ++ dumps_str v2 ++ "}")), skip_ws_quote,
    <- (dumps_str_append k2 (": " ++ dumps_str v2 ++ "}")).
  rewrite parse_member_string.
  cbn [dict_set]. rewrite Hk. reflexivity.
Qed.

End JsonFacts.

(** * The requirements step and the provider call *)

Section Generation.
Import Json Backend.

Lemma substring_min (s : string) :
  forall n, substring 0 (Nat.min n (String.length s)) s = substring 0 n s.
Proof.
  induction s as [|c s IH]; intros [|n]; simpl; try reflexivity.
  now rewrite IH.
Qed.

(** [s[:n]] is the prefix of [s] of at most [n] characters. *)
Lemma slice_prefix (s : string) (n : nat) :
  PyStr.slice s 0 (Z.of_nat n) = substring 0 n s.
Proof.
  unfold PyStr.slice, PyStr.clamp_index, PyStr.len.
  change (0 <? 0) with false. cbv iota.
  assert (E : (Z.of_nat n <? 0) = false) by (apply Z.ltb_ge; lia).
  rewrite E.
  replace (Z.min 0 (Z.of_nat (String.length s))) with 0 by lia.
  replace (Z.min (Z.of_nat n) (Z.of_nat (String.length s)) - 0)
    with (Z.of_nat (Nat.min n (String.length s))) by lia.
  change (Z.to_nat 0) with 0%nat. rewrite Nat2Z.id. apply substring_min.
Qed.

Lemma fallback_subject_eq (brief : EmailBrief) :
  fallback_subject brief
  = "Regarding: " ++ substring 0 50 (purpose brief) ++ "...".
Proof.
  unfold fallback_subject. change 50 with (Z.of_nat 50).
  now rewrite slice_prefix.
Qed.

(** C1.  When the payload does not parse, [process_requirements]
    returns the subject ["Regarding: "], the first 50 characters of
    the purpose and ["..."], and a context that is the JSON text of an
    object holding the raw purpose and that subject. *)
Theorem process_requirements_fallback
  (json_loads : string -> option json) (brief : EmailBrief)
  (response : string) :
  json_loads (extract_json_str response) = None ->
  let derived := "Regarding: " ++ substring 0 50 (purpose brief) ++ "..." in
  let result := process_requirements json_loads brief response in
  subject result = JStr derived
  /\ context result
     = dumps (JObj [("purpose", JStr (purpose brief));
                    ("subject_suggestion", JStr derived)])
  /\ loads (context result)
     = Some (JObj [("purpose", JStr (purpose brief));
                   ("subject_suggestion", JStr derived)]).
Proof.
  intros Hfail derived result. subst result derived.
  unfold process_requirements. rewrite Hfail.
  unfold fallback_requirements. cbn [subject context].
  rewrite fallback_subject_eq.
  repeat split.
  apply loads_dumps_two_strings. reflexivity.
Qed.

Lemma process_requirements_fallback_witness :
  subject (process_requirements loads
             {| recipients := ["a@x.com"];
                purpose := "Schedule a meeting";
                tone := "professional";
                constraints := None |}
             "Sorry, I cannot help with that.")
  = JStr "Regarding: Schedule a meeting...".
Proof.
  exact (proj1 (process_requirements_fallback loads
                  {| recipients := ["a@x.com"];
                     purpose := "Schedule a meeting";
                     tone := "professional";
                     constraints := None |}
                  "Sorry, I cannot help with that." eq_refl)).
Defined.

(** A decoded value that is not an object ends in the same fallback. *)
Lemma process_requirements_not_object
  (json_loads : string -> option json) (brief : EmailBrief)
  (response : string) (v : json) :
  json_loads (extract_json_str response) = Some v ->
  (forall members, v <> JObj members) ->
  process_requirements json_loads brief response
  = fallback_requirements brief.
Proof.
  intros Hv Hno. unfold process_requirements. rewrite Hv.
  destruct v; try reflexivity. now destruct (Hno members).
Qed.

(** C7, as amended.  [call_gemini_api] never raises: a failed request
    comes back as the text ["API Error: "] followed by the message of
    the exception, any other exception as ["Error: "] followed by its
    message, and a generation that produces the same text is answered
    with the same value. *)
Theorem call_gemini_api_returns_error_text (e : string) :
  call_gemini_api (RequestFailed e) = "API Error: " ++ e
  /\ call_gemini_api (OtherFailure e) = "Error: " ++ e
  /\ call_gemini_api (generated ("API Error: " ++ e))
     = call_gemini_api (RequestFailed e).
Proof. repeat split. Qed.

Example request_failure_text :
  call_gemini_api (RequestFailed "timed out") = "API Error: timed out"
  /\ call_gemini_api (generated "API Error: timed out")
     = "API Error: timed out".
Proof. split; reflexivity. Qed.

(** C7, as stated, fails: no test on the returned string tells a
    failed request from a generated text. *)
Lemma failure_not_distinguishable : ~ Design.failure_distinguishable.
Proof.
  intros (is_error & Hfail & Hgen).
  specialize (Hfail "timed out").
  specialize (Hgen "API Error: timed out").
  change (call_gemini_api (generated "API Error: timed out"))
    with (call_gemini_api (RequestFailed "timed out")) in Hgen.
  congruence.
Qed.

End Generation.

(** * The store *)

Section Store.
Import Json Backend.

Lemma get_thread_by_id_app (tid : string) (a b : database) :
  get_thread_by_id tid (a ++ b)%list =
  match get_thread_by_id tid a with
  | Some r => Some r
  | None => get_thread_by_id tid b
  end.
Proof.
  induction a as [|r a IH]; simpl; [reflexivity|].
  now destruct (String.eqb (Row.thread_id r) tid).
Qed.

(** After the row with primary key [tid] is gone, no row answers to
    the thread id [tid]. *)
Lemma get_thread_by_id_replaced (tid : string) (db : database) :
  keys_agree db ->
  get_thread_by_id tid
    (filter (fun r => negb (String.eqb (Row.id r) tid)) db) = None.
Proof.
  induction 1 as [|r db Hr _ IH]; simpl; [reflexivity|].
  destruct (String.eqb (Row.id r) tid) eqn:E; simpl; [exact IH|].
  rewrite <- Hr, E. exact IH.
Qed.

Lemma keys_agree_save tid brief subject draft status created updated db :
  keys_agree db ->
  keys_agree (save_email tid brief subject draft status created updated db).
Proof.
  intros H. unfold keys_agree, save_email. apply Forall_app. split.
  - apply Forall_forall. intros r Hr. apply filter_In in Hr.
    exact (proj1 (Forall_forall _ _) H r (proj1 Hr)).
  - now constructor.
Qed.

Lemma keys_agree_update tid status final_email now db :
  keys_agree db ->
  keys_agree (update_email_status tid status final_email now db).
Proof.
  induction 1 as [|r db Hr _ IH]; simpl; constructor; try exact IH.
  now destruct (String.eqb (Row.thread_id r) tid).
Qed.

Lemma keys_agree_run_call (db : database) (c : store_call) :
  keys_agree db -> keys_agree (run_call db c).
Proof.
  destruct c; [apply keys_agree_save | apply keys_agree_update].
Qed.

(** Every store the two writing methods can build has agreeing keys. *)
Lemma keys_agree_run_calls (calls : list store_call) :
  keys_agree (run_calls calls).
Proof.
  unfold run_calls.
  assert (H : keys_agree (setup_database None)) by constructor.
  revert H. generalize (setup_database None).
  induction calls as [|c calls IH]; intros db H; simpl; [exact H|].
  apply IH, keys_agree_run_call, H.
Qed.

(** C5.  A thread saved and read back under the same id has the
    purpose and the tone of the brief, and its recipients column
    decodes to the recipients of the brief, in their order. *)
Theorem save_email_get_thread_by_id
  (tid : string) (brief : EmailBrief) (subject draft status : string)
  (created updated : timestamp) (db : database) :
  keys_agree db ->
  exists r,
    get_thread_by_id tid
      (save_email tid brief subject draft status created updated db)
    = Some r
    /\ Row.purpose r = purpose brief
    /\ Row.tone r = tone brief
    /\ loads (Row.recipients r) = Some (JArr (map JStr (recipients brief))).
Proof.
  intros Hkeys. unfold save_email.
  rewrite get_thread_by_id_app, (get_thread_by_id_replaced tid db Hkeys).
  cbn [get_thread_by_id Row.thread_id]. rewrite String.eqb_refl.
  eexists. split; [reflexivity|]. cbn.
  repeat split. apply loads_dumps_strings.
Qed.

Lemma save_email_get_thread_by_id_witness :
  exists r,
    get_thread_by_id "t1"
      (save_email "t1"
         {| recipients := ["a@x.com"; "b@y.org"];
            purpose := "Schedule a meeting";
            tone := "professional";
            constraints := None |}
         "Meeting" "Hello" "draft" 10 11
         (run_calls [Save "t1"
                       {| recipients := ["old@x.com"];
                          purpose := "Earlier";
                          tone := "casual";
                          constraints := None |}
                       "Old" "Hi" "draft" 1 2]))
    = Some r
    /\ Row.purpose r = "Schedule a meeting"
    /\ Row.tone r = "professional"
    /\ loads (Row.recipients r)
       = Some (JArr [JStr "a@x.com"; JStr "b@y.org"]).
Proof.
  apply (save_email_get_thread_by_id "t1"
           {| recipients := ["a@x.com"; "b@y.org"];
              purpose := "Schedule a meeting";
              tone := "professional";
              constraints := None |}).
  apply keys_agree_run_calls.
Defined.

(** *** The history *)

Lemma insert_desc_perm (r : Row.t) (l : list Row.t) :
  Permutation (r :: l) (insert_desc r l).
Proof.
  induction l as [|x l IH]; simpl; [apply Permutation_refl|].
  destruct (Row.created_at x <=? Row.created_at r).
  - apply Permutation_refl.
  - eapply perm_trans; [apply perm_swap|]. now apply perm_skip.
Qed.

Lemma insert_desc_hd (r : Row.t) (l : list Row.t) (a : Row.t) :
  newer_first a r -> HdRel newer_first a l ->
  HdRel newer_first a (insert_desc r l).
Proof.
  intros Har Hl. destruct l as [|x l]; simpl; [now constructor|].
  destruct (Row.created_at x <=? Row.created_at r); constructor;
    [exact Har | now inversion Hl].
Qed.

Lemma insert_desc_sorted (r : Row.t) (l : list Row.t) :
  Sorted newer_first l -> Sorted newer_first (insert_desc r l).
Proof.
  induction 1 as [|x l Hl IH Hhd]; simpl; [repeat constructor|].
  destruct (Row.created_at x <=? Row.created_at r) eqn:E.
  - constructor; [now constructor|].
    constructor. unfold newer_first. now apply Z.leb_le.
  - constructor; [exact IH|].
    apply insert_desc_hd; [|exact Hhd].
    unfold newer_first. apply Z.leb_gt in E. lia.
Qed.

Lemma newer_first_trans : Relations_1.Transitive newer_first.
Proof. intros a b c Hab Hbc. unfold newer_first in *. lia. Qed.

(** C9.  The history holds every persisted record once, each record
    created at least as late as all those listed after it. *)
Theorem get_email_history_newest_first (db : database) :
  Permutation db (get_email_history db)
  /\ StronglySorted (fun a b => Row.created_at b <= Row.created_at a)
       (get_email_history db).
Proof.
  unfold get_email_history. split.
  - induction db as [|r db IH]; simpl; [constructor|].
    eapply perm_trans; [apply perm_skip, IH | apply insert_desc_perm].
  - apply (Sorted_StronglySorted newer_first_trans).
    induction db as [|r db IH]; simpl; [constructor|].
    now apply insert_desc_sorted.
Qed.

(** *** Updating the status *)

(** C10.  [update_email_status] keeps the number and the order of the
    rows; in every row the columns id, thread_id, recipients, subject,
    purpose, tone, draft and created_at keep their value, and a row of
    another thread is not changed at all. *)
Theorem update_email_status_frame
  (tid status : string) (final_email : option (list (string * json)))
  (now : timestamp) (db : database) :
  Forall2
    (fun r r' =>
       Row.id r' = Row.id r
       /\ Row.thread_id r' = Row.thread_id r
       /\ Row.recipients r' = Row.recipients r
       /\ Row.subject r' = Row.subject r
       /\ Row.purpose r' = Row.purpose r
       /\ Row.tone r' = Row.tone r
       /\ Row.draft r' = Row.draft r
       /\ Row.created_at r' = Row.created_at r
       /\ (Row.thread_id r <> tid -> r' = r))
    db (update_email_status tid status final_email now db).
Proof.
  induction db as [|r db IH]; simpl; constructor; [|exact IH].
  destruct (String.eqb_spec (Row.thread_id r) tid) as [E | E].
  - cbn. repeat split; try reflexivity. intros Hne. contradiction.
  - repeat split; reflexivity.
Qed.

(** C3, as amended.  [update_email_status] looks at no state: the
    record read back after the call is the record read before it with
    the requested status, the given final email and the new update
    time, whatever its status was; when no record has the thread id,
    none is found afterwards either. *)
Theorem update_email_status_unconditional
  (tid status : string) (final_email : option (list (string * json)))
  (now : timestamp) (db : database) :
  get_thread_by_id tid (update_email_status tid status final_email now db)
  = option_map (set_status status (final_email_json final_email) now)
      (get_thread_by_id tid db).
Proof.
  induction db as [|r db IH]; simpl; [reflexivity|].
  destruct (String.eqb (Row.thread_id r) tid) eqn:E.
  - cbn. now rewrite E.
  - rewrite E. exact IH.
Qed.

(** Nothing stands in the way of a status the design forbids: a
    rejected thread becomes an approved one. *)
Example rejected_then_approved :
  update_email_status "t1" "approved" None 20
    [ {| Row.id := "t1"; Row.thread_id := "t1";
         Row.recipients := "[]"; Row.subject := "s";
         Row.purpose := "p"; Row.tone := "formal";
         Row.draft := "d"; Row.final_email := None;
         Row.status := "rejected";
         Row.created_at := 1; Row.updated_at := 2 |} ]
  = [ {| Row.id := "t1"; Row.thread_id := "t1";
         Row.recipients := "[]"; Row.subject := "s";
         Row.purpose := "p"; Row.tone := "formal";
         Row.draft := "d"; Row.final_email := None;
         Row.status := "approved";
         Row.created_at := 1; Row.updated_at := 20 |} ].
Proof. reflexivity. Qed.

(** C3, as stated, fails: approving the draft of a rejected thread
    changes its record. *)
Lemma invalid_transition_is_applied : ~ Design.rejects_invalid_transitions.
Proof.
  intros H.
  specialize (H Design.approveDraft Design.rejected "t1" None 20
                [ {| Row.id := "t1"; Row.thread_id := "t1";
                     Row.recipients := "[]"; Row.subject := "s";
                     Row.purpose := "p"; Row.tone := "formal";
                     Row.draft := "d"; Row.final_email := None;
                     Row.status := "rejected";
                     Row.created_at := 1; Row.updated_at := 2 |} ]
                _ eq_refl eq_refl eq_refl).
  vm_compute in H. discriminate H.
Qed.

(** *** The final email *)

Lemma final_email_json_some (final_email : option (list (string * json))) :
  final_email_json final_email <> None
  <-> match final_email with Some (_ :: _) => true | _ => false end = true.
Proof.
  destruct final_email as [[|m ms]|]; simpl; split; congruence.
Qed.

Lemma final_email_invariant_run_call (db : database) (c : store_call) :
  Design.pairs_final_email c = true ->
  Design.final_email_invariant db ->
  Design.final_email_invariant (run_call db c).
Proof.
  intros Hc Hdb r Hr. destruct c; simpl in Hc, Hr.
  - unfold save_email in Hr. apply in_app_or in Hr. destruct Hr as [Hr | Hr].
    + apply filter_In in Hr. exact (Hdb r (proj1 Hr)).
    + destruct Hr as [<- | []]. cbn.
      apply negb_true_iff in Hc. rewrite Hc. split; congruence.
  - induction db as [|x db IH]; simpl in Hr; [contradiction|].
    destruct Hr as [<- | Hr].
    + destruct (String.eqb (Row.thread_id x) thread_id).
      * cbn. rewrite final_email_json_some.
        apply Bool.eqb_prop in Hc. rewrite Hc. reflexivity.
      * apply Hdb. now left.
    + apply IH; [|exact Hr]. intros y Hy. apply Hdb. now right.
Qed.

(** C4, as amended.  When every [save_email] stores a status other
    than sent and send_failed, and every [update_email_status] passes
    a non-empty final email exactly with the status sent or
    send_failed, every record of the store has a final email exactly
    when its status is sent or send_failed. *)
Theorem final_email_invariant_paired (calls : list store_call) :
  Forall (fun c => Design.pairs_final_email c = true) calls ->
  Design.final_email_invariant (run_calls calls).
Proof.
  unfold run_calls.
  assert (H : Design.final_email_invariant (setup_database None))
    by (intros r []).
  revert H. generalize (setup_database None).
  induction calls as [|c calls IH]; intros db H Hcalls; simpl; [exact H|].
  inversion Hcalls as [|c' calls' Hc Hrest]; subst.
  apply IH; [|exact Hrest].
  now apply final_email_invariant_run_call.
Qed.

Lemma final_email_invariant_paired_witness :
  Design.final_email_invariant
    (run_calls
       [Save "t1" {| recipients := ["a@x.com"];
                     purpose := "Schedule a meeting";
                     tone := "professional";
                     constraints := None |}
             "Meeting" "Hello" "draft" 1 2;
        Update "t1" "sent"
               (Some [("subject", JStr "Meeting"); ("body", JStr "Hello");
                      ("recipients", JArr [JStr "a@x.com"])]) 3]).
Proof.
  apply final_email_invariant_paired.
  repeat constructor.
Defined.

(** The store after a thread is saved and then marked as sent with
    [final_email] left to its default. *)
Example sent_with_default_final_email :
  run_calls [Save "t1" {| recipients := ["a@x.com"];
                          purpose := "Schedule a meeting";
                          tone := "professional";
                          constraints := None |}
                  "Meeting" "Hello" "draft" 1 2;
             Update "t1" "sent" None 3]
  = [ {| Row.id := "t1"; Row.thread_id := "t1";
         Row.recipients := dumps (JArr [JStr "a@x.com"]);
         Row.subject := "Meeting";
         Row.purpose := "Schedule a meeting";
         Row.tone := "professional";
         Row.draft := "Hello";
         Row.final_email := None;
         Row.status := "sent";
         Row.created_at := 1; Row.updated_at := 3 |} ].
Proof. reflexivity. Qed.

(** C4, as stated, fails: a thread saved and then marked as sent by a
    call that leaves [final_email] to its default is a record with the
    status sent and no final email. *)
Lemma sent_without_final_email :
  ~ (forall calls, Design.final_email_invariant (run_calls calls)).
Proof.
  intros H.
  specialize (H [Save "t1" {| recipients := ["a@x.com"];
                              purpose := "Schedule a meeting";
                              tone := "professional";
                              constraints := None |}
                      "Meeting" "Hello" "draft" 1 2;
                 Update "t1" "sent" None 3]).
  specialize (H _ (or_introl eq_refl)).
  cbn in H. destruct H as [_ H]. now apply (H eq_refl).
Qed.

End Store.

(** * Revisions of the draft *)

Section Revisions.
Import Backend App.

Lemma show_review_form_store (new_subject new_draft : string)
  (st : session * database) :
  snd (show_review_form new_subject new_draft None st) = snd st
  /\ forall feedback response,
       snd (show_review_form new_subject new_draft
              (Some (ApplyImprovements feedback response)) st) = snd st.
Proof.
  destruct st as [s db]. unfold show_review_form.
  destruct (current_draft s) as [[|c d]|]; cbn [snd];
    (split; [|intros feedback response]); try reflexivity;
    cbn [with_content current_brief]; destruct (current_brief s);
    try reflexivity.
  now destruct (PyStr.strip feedback).
Qed.

Lemma revise_store (st : session * database) (r : revision) :
  snd (revise st r) = snd st.
Proof.
  destruct r; unfold revise.
  - apply show_review_form_store.
  - apply (proj2 (show_review_form_store _ _ st)).
Qed.

(** C6, as amended.  No revision number is recorded: a sequence of
    revisions, edits by hand or improvements by the provider, changes
    the draft held in the session and leaves the store, whose records
    have no revision column, as it was. *)
Theorem revisions_leave_store (revisions : list revision)
  (st : session * database) :
  snd (fold_left revise revisions st) = snd st.
Proof.
  revert st. induction revisions as [|r revisions IH]; intros st; simpl.
  - reflexivity.
  - now rewrite IH, revise_store.
Qed.

(** C6, as stated, fails: whatever is read off the persisted record,
    it is the same before and after a revision. *)
Lemma no_revision_number : ~ exists rev, Design.records_revisions rev.
Proof.
  intros [rev H].
  pose (row := {| Row.id := "t1"; Row.thread_id := "t1";
                  Row.recipients := "[]"; Row.subject := "Meeting";
                  Row.purpose := "p"; Row.tone := "formal";
                  Row.draft := "Hello"; Row.final_email := None;
                  Row.status := "draft";
                  Row.created_at := 1; Row.updated_at := 2 |}).
  pose (s := {| current_draft := Some "Hello";
                current_subject := Some "Meeting";
                current_brief :=
                  Some {| recipients := []; purpose := "p";
                          tone := "formal"; constraints := None |};
                thread_id := "t1" |}).
  specialize (H (s, [row]) (Improve "Meeting" "Hello" "shorter" "Hi")
                row row eq_refl eq_refl).
  exact (Nat.lt_irrefl _ H).
Qed.

End Revisions.

(** The review form, whose buttons are the callers of the two writing
    methods, keeps the pairing of status and final email. *)
Section ReviewForm.
Import Json Backend App.

Lemma show_review_form_final_email
  (new_subject new_draft : string) (clicked : option button)
  (st : session * database) :
  Design.final_email_invariant (snd st) ->
  Design.final_email_invariant
    (snd (show_review_form new_subject new_draft clicked st)).
Proof.
  destruct st as [s db]. cbn [snd]. intros H. unfold show_review_form.
  destruct (current_draft s) as [[|c d]|]; cbn [snd]; try exact H.
  cbn [with_content current_brief thread_id].
  destruct (current_brief s) as [brief|]; [|destruct clicked; exact H].
  destruct clicked as [[result now | feedback response | created updated]|];
    cbn [snd]; try exact H.
  - destruct (PyStr.strip new_subject); [exact H|].
    destruct (PyStr.strip new_draft); [exact H|].
    destruct (Mail.success result); cbn [snd]; [|exact H].
    exact (final_email_invariant_run_call db
             (Update (thread_id s) "sent"
                (Some [("subject", JStr new_subject);
                       ("body", JStr new_draft);
                       ("recipients", JArr (map JStr (recipients brief)))])
                now) eq_refl H).
  - now destruct (PyStr.strip feedback).
  - exact (final_email_invariant_run_call db
             (Save (thread_id s) brief new_subject new_draft "saved"
                created updated) eq_refl H).
Qed.

End ReviewForm.

(** * Delivery *)

Section Delivery.
Import Mail.

(** C8.  [send_email] returns a success flag and a message.  Without
    credentials it fails with the configuration message and opens no
    session.  With credentials it opens one session, and reports the
    delivery as a success, a refused login and refused recipients each
    with a message of its own, and any other error with its text. *)
Theorem send_email_classifies
  (config : smtp_config) (EMAIL_USERNAME EMAIL_PASSWORD : option string)
  (smtp : smtp_session -> smtp_outcome)
  (subject body : string) (recipients : list string)
  (sender_email sender_password : option string) (is_html : bool) :
  let out := send_email config EMAIL_USERNAME EMAIL_PASSWORD smtp
               subject body recipients sender_email sender_password is_html in
  (py_not (py_or sender_email EMAIL_USERNAME) = true
   \/ py_not (py_or sender_password EMAIL_PASSWORD) = true ->
   out = ({| success := false; message := credentials_message |}, []))
  /\ (py_not (py_or sender_email EMAIL_USERNAME) = false ->
      py_not (py_or sender_password EMAIL_PASSWORD) = false ->
      exists session,
        snd out = [session]
        /\ envelope_to session = recipients
        /\ match smtp session with
           | Delivered =>
               fst out
               = {| success := true;
                    message := "Email sent successfully to "
                               ++ PyStr.of_nat (List.length recipients)
                               ++ " recipient(s)" |}
           | SMTPAuthenticationError =>
               fst out
               = {| success := false; message := authentication_message |}
           | SMTPRecipientsRefused =>
               fst out
               = {| success := false; message := recipients_message |}
           | OtherError e =>
               fst out
               = {| success := false;
                    message := "Failed to send email: " ++ e |}
           end)
  /\ credentials_message <> authentication_message
  /\ credentials_message <> recipients_message
  /\ authentication_message <> recipients_message.
Proof.
  intros out. subst out. unfold send_email.
  split; [|split; [|repeat split; discriminate]].
  - intros [H | H].
    + destruct (py_or sender_email EMAIL_USERNAME) as [[|c u]|];
        try discriminate H; reflexivity.
    + destruct (py_or sender_email EMAIL_USERNAME) as [[|c u]|];
        try reflexivity.
      destruct (py_or sender_password EMAIL_PASSWORD) as [[|d w]|];
        try discriminate H; reflexivity.
  - intros Hu Hp.
    destruct (py_or sender_email EMAIL_USERNAME) as [[|c u]|];
      try discriminate Hu.
    destruct (py_or sender_password EMAIL_PASSWORD) as [[|d w]|];
      try discriminate Hp.
    eexists. split; [reflexivity|]. split; [reflexivity|].
    cbn [fst]. now destruct (smtp _).
Qed.

Lemma send_email_classifies_witness :
  send_email gmail None (Some "secret") (fun _ => Delivered)
    "Meeting" "Hello" ["a@x.com"] None None false
  = ({| success := false; message := credentials_message |}, [])
  /\ exists session,
       snd (send_email gmail (Some "me@x.com") (Some "secret")
              (fun _ => SMTPAuthenticationError)
              "Meeting" "Hello" ["a@x.com"] None None false) = [session]
       /\ envelope_to session = ["a@x.com"]
       /\ fst (send_email gmail (Some "me@x.com") (Some "secret")
                 (fun _ => SMTPAuthenticationError)
                 "Meeting" "Hello" ["a@x.com"] None None false)
          = {| success := false; message := authentication_message |}.
Proof.
  split.
  - apply (proj1 (send_email_classifies gmail None (Some "secret")
                    (fun _ => Delivered) "Meeting" "Hello" ["a@x.com"]
                    None None false)).
    left. reflexivity.
  - destruct (proj1 (proj2 (send_email_classifies gmail (Some "me@x.com")
                    (Some "secret") (fun _ => SMTPAuthenticationError)
                    "Meeting" "Hello" ["a@x.com"] None None false))
                eq_refl eq_refl) as (session & Hs & Hto & Hout).
    exists session. repeat split; assumption.
Defined.

End Delivery.

(** * More on the store *)

Section StoreLookups.
Import Json Backend Samples.

Lemma update_email_status_ids tid status final_email now db :
  map Row.id (update_email_status tid status final_email now db)
  = map Row.id db.
Proof.
  induction db as [|r db IH]; simpl; [reflexivity|].
  rewrite IH. now destruct (String.eqb (Row.thread_id r) tid).
Qed.

Lemma filter_ids_subset (f : Row.t -> bool) (db : database) (x : string) :
  In x (map Row.id (filter f db)) -> In x (map Row.id db).
Proof.
  rewrite !in_map_iff. intros (r & Hr & Hin).
  apply filter_In in Hin. exists r. tauto.
Qed.

Lemma filter_ids_nodup (f : Row.t -> bool) (db : database) :
  NoDup (map Row.id db) -> NoDup (map Row.id (filter f db)).
Proof.
  induction db as [|r db IH]; simpl; intros H; [constructor|].
  inversion H as [|x l Hx Hl]; subst.
  destruct (f r); simpl; [constructor|]; auto.
  intros Hin. apply Hx. eapply filter_ids_subset, Hin.
Qed.

Lemma ids_nodup_run_call (db : database) (c : store_call) :
  NoDup (map Row.id db) -> NoDup (map Row.id (run_call db c)).
Proof.
  intros H. destruct c; simpl.
  - unfold save_email. rewrite map_app. cbn [map Row.id].
    apply NoDup_app.
    + now apply filter_ids_nodup.
    + repeat constructor. intros [].
    + intros x Hin [<- | []].
      apply in_map_iff in Hin. destruct Hin as (r & Hr & Hin).
      apply filter_In in Hin. destruct Hin as [_ Hne].
      rewrite Hr, String.eqb_refl in Hne. discriminate.
  - now rewrite update_email_status_ids.
Qed.

(** The primary key: no two rows of a store built by the two writing
    methods have the same id. *)
Lemma ids_nodup_run_calls (calls : list store_call) :
  NoDup (map Row.id (run_calls calls)).
Proof.
  unfold run_calls.
  assert (H : NoDup (map Row.id (setup_database None))) by constructor.
  revert H. generalize (setup_database None).
  induction calls as [|c calls IH]; intros db H; simpl; [exact H|].
  apply IH, ids_nodup_run_call, H.
Qed.

Lemma filter_thread_absent (tid : string) (db : database) :
  ~ In tid (map Row.thread_id db) ->
  filter (fun r => String.eqb (Row.thread_id r) tid) db = [].
Proof.
  induction db as [|r db IH]; simpl; intros H; [reflexivity|].
  destruct (String.eqb_spec (Row.thread_id r) tid) as [E | E].
  - exfalso. apply H. now left.
  - apply IH. intros Hin. apply H. now right.
Qed.

Lemma thread_ids_are_ids (db : database) :
  keys_agree db -> map Row.thread_id db = map Row.id db.
Proof.
  induction 1 as [|r db Hr _ IH]; simpl; [reflexivity|].
  now rewrite IH, Hr.
Qed.

(** X1.  In every store the two writing methods can build, at most one
    row answers to a thread id. *)
Theorem one_row_per_thread (calls : list store_call) (tid : string) :
  (List.length (filter (fun r => String.eqb (Row.thread_id r) tid)
                  (run_calls calls)) <= 1)%nat.
Proof.
  pose proof (ids_nodup_run_calls calls) as Hnd.
  rewrite <- (thread_ids_are_ids _ (keys_agree_run_calls calls)) in Hnd.
  induction (run_calls calls) as [|r db IH]; simpl; [lia|].
  inversion Hnd as [|x l Hx Hl]; subst.
  destruct (String.eqb_spec (Row.thread_id r) tid) as [E | E].
  - subst tid. rewrite (filter_thread_absent _ _ Hx). simpl. lia.
  - apply IH, Hl.
Qed.

Lemma get_thread_by_id_kept (tid tid' : string) (db : database) :
  keys_agree db -> tid' <> tid ->
  get_thread_by_id tid'
    (filter (fun r => negb (String.eqb (Row.id r) tid)) db)
  = get_thread_by_id tid' db.
Proof.
  intros Hk Hne. induction Hk as [|r db Hr _ IH]; simpl; [reflexivity|].
  destruct (String.eqb_spec (Row.id r) tid) as [E | E]; simpl.
  - destruct (String.eqb_spec (Row.thread_id r) tid') as [E' | E'];
      [congruence | exact IH].
  - now rewrite IH.
Qed.

(** X2.  Saving a thread again replaces its record as a whole: the
    record read back is the new one, with no final email and with the
    creation time of this call, whatever was stored before. *)
Theorem save_email_overwrites
  (tid : string) (brief : EmailBrief) (subject draft status : string)
  (created updated : timestamp) (db : database) :
  keys_agree db ->
  get_thread_by_id tid
    (save_email tid brief subject draft status created updated db)
  = Some {| Row.id := tid;
            Row.thread_id := tid;
            Row.recipients := dumps (JArr (map JStr (recipients brief)));
            Row.subject := subject;
            Row.purpose := purpose brief;
            Row.tone := tone brief;
            Row.draft := draft;
            Row.final_email := None;
            Row.status := status;
            Row.created_at := created;
            Row.updated_at := updated |}.
Proof.
  intros Hk. unfold save_email.
  rewrite get_thread_by_id_app, (get_thread_by_id_replaced tid db Hk).
  cbn [get_thread_by_id Row.thread_id]. now rewrite String.eqb_refl.
Qed.

Lemma save_email_overwrites_witness :
  get_thread_by_id "t1"
    (save_email "t1" sample_brief "Meeting" "Hello again" "saved" 7 8
       sample_store)
  = Some {| Row.id := "t1";
            Row.thread_id := "t1";
            Row.recipients := dumps (JArr (map JStr (recipients sample_brief)));
            Row.subject := "Meeting";
            Row.purpose := "Schedule a meeting";
            Row.tone := "professional";
            Row.draft := "Hello again";
            Row.final_email := None;
            Row.status := "saved";
            Row.created_at := 7;
            Row.updated_at := 8 |}.
Proof.
  apply (save_email_overwrites "t1" sample_brief).
  apply keys_agree_run_calls.
Defined.

(** X3.  Saving one thread leaves what is read under every other thread
    id as it was. *)
Theorem save_email_other_threads
  (tid tid' : string) (brief : EmailBrief) (subject draft status : string)
  (created updated : timestamp) (db : database) :
  keys_agree db -> tid' <> tid ->
  get_thread_by_id tid'
    (save_email tid brief subject draft status created updated db)
  = get_thread_by_id tid' db.
Proof.
  intros Hk Hne. unfold save_email.
  rewrite get_thread_by_id_app, (get_thread_by_id_kept tid tid' db Hk Hne).
  destruct (get_thread_by_id tid' db); [reflexivity|].
  cbn [get_thread_by_id Row.thread_id].
  destruct (String.eqb_spec tid tid'); [congruence | reflexivity].
Qed.

Lemma save_email_other_threads_witness :
  get_thread_by_id "t2"
    (save_email "t1" sample_brief "Meeting" "Hello again" "saved" 7 8
       sample_store)
  = get_thread_by_id "t2" sample_store.
Proof.
  apply save_email_other_threads.
  - apply keys_agree_run_calls.
  - discriminate.
Defined.

End StoreLookups.

Section StoreUpdates.
Import Json Backend Samples.

Lemma get_thread_by_id_none (tid : string) (db : database) :
  get_thread_by_id tid db = None <->
  forall r, In r db -> Row.thread_id r <> tid.
Proof.
  induction db as [|x db IH]; simpl.
  - split; [intros _ r [] | reflexivity].
  - destruct (String.eqb_spec (Row.thread_id x) tid) as [E | E].
    + split; [discriminate|]. intros H. now destruct (H x (or_introl eq_refl)).
    + rewrite IH. split.
      * intros H r [<- | Hr]; [exact E | now apply H].
      * intros H r Hr. apply H. now right.
Qed.

Lemma get_thread_by_id_some (tid : string) (db : database) (r : Row.t) :
  get_thread_by_id tid db = Some r -> In r db /\ Row.thread_id r = tid.
Proof.
  induction db as [|x db IH]; simpl; [discriminate|].
  destruct (String.eqb_spec (Row.thread_id x) tid) as [E | E].
  - intros [= <-]. split; [now left | exact E].
  - intros H. destruct (IH H). split; [now right | assumption].
Qed.

(** X4.  [get_thread_by_id] answers [None] exactly when no row has the
    thread id, and a row it returns is a row of the table with that
    thread id. *)
Theorem get_thread_by_id_spec (tid : string) (db : database) :
  (get_thread_by_id tid db = None <->
   forall r, In r db -> Row.thread_id r <> tid)
  /\ (forall r, get_thread_by_id tid db = Some r ->
                In r db /\ Row.thread_id r = tid).
Proof.
  split; [apply get_thread_by_id_none | apply get_thread_by_id_some].
Qed.

Lemma get_thread_by_id_spec_witness :
  In sample_row sample_store /\ Row.thread_id sample_row = "t2".
Proof.
  exact (proj2 (get_thread_by_id_spec "t2" sample_store) sample_row eq_refl).
Defined.

Lemma update_email_status_absent tid status final_email now db :
  (forall r, In r db -> Row.thread_id r <> tid) ->
  update_email_status tid status final_email now db = db.
Proof.
  induction db as [|x db IH]; simpl; intros H; [reflexivity|].
  destruct (String.eqb_spec (Row.thread_id x) tid) as [E | E].
  - now destruct (H x (or_introl eq_refl)).
  - rewrite IH; [reflexivity|]. intros r Hr. apply H. now right.
Qed.

(** X5.  Updating the status of a thread id that is not in the store
    changes nothing, and reports nothing. *)
Theorem update_email_status_unknown_thread
  (tid status : string) (final_email : option (list (string * json)))
  (now : timestamp) (db : database) :
  get_thread_by_id tid db = None ->
  update_email_status tid status final_email now db = db.
Proof.
  intros H. apply update_email_status_absent.
  now apply get_thread_by_id_none.
Qed.

Lemma update_email_status_unknown_thread_witness :
  update_email_status "t9" "sent" None 9 sample_store = sample_store.
Proof.
  apply update_email_status_unknown_thread. reflexivity.
Defined.

(** X6.  The last update wins: of two updates of the same thread only
    the second one shows; in particular an update done twice is an
    update done once. *)
Theorem update_email_status_last_wins
  (tid s1 s2 : string) (f1 f2 : option (list (string * json)))
  (n1 n2 : timestamp) (db : database) :
  update_email_status tid s2 f2 n2 (update_email_status tid s1 f1 n1 db)
  = update_email_status tid s2 f2 n2 db.
Proof.
  induction db as [|r db IH]; simpl; [reflexivity|].
  rewrite IH. f_equal.
  destruct (String.eqb (Row.thread_id r) tid) eqn:E.
  - cbn [set_status Row.thread_id]. rewrite E. reflexivity.
  - now rewrite E.
Qed.

(** X7.  Updates of two different threads can be done in either
    order. *)
Theorem update_email_status_commutes
  (t1 t2 s1 s2 : string) (f1 f2 : option (list (string * json)))
  (n1 n2 : timestamp) (db : database) :
  t1 <> t2 ->
  update_email_status t1 s1 f1 n1 (update_email_status t2 s2 f2 n2 db)
  = update_email_status t2 s2 f2 n2 (update_email_status t1 s1 f1 n1 db).
Proof.
  intros Hne. induction db as [|r db IH]; simpl; [reflexivity|].
  rewrite IH. f_equal.
  destruct (String.eqb (Row.thread_id r) t1) eqn:E1;
    destruct (String.eqb (Row.thread_id r) t2) eqn:E2;
    cbn [set_status Row.thread_id]; rewrite ?E1, ?E2; try reflexivity.
  apply String.eqb_eq in E1, E2. congruence.
Qed.

Lemma update_email_status_commutes_witness :
  update_email_status "t1" "sent" None 8
    (update_email_status "t2" "saved" None 9 sample_store)
  = update_email_status "t2" "saved" None 9
      (update_email_status "t1" "sent" None 8 sample_store).
Proof. apply update_email_status_commutes. discriminate. Defined.

Lemma insert_desc_update tid status final_email now r sorted :
  insert_desc
    (if String.eqb (Row.thread_id r) tid
     then set_status status (final_email_json final_email) now r else r)
    (update_email_status tid status final_email now sorted)
  = update_email_status tid status final_email now (insert_desc r sorted).
Proof.
  induction sorted as [|x sorted IH]; simpl; [reflexivity|].
  assert (Hx : Row.created_at
                 (if String.eqb (Row.thread_id x) tid
                  then set_status status (final_email_json final_email) now x
                  else x) = Row.created_at x)
    by (now destruct (String.eqb (Row.thread_id x) tid)).
  assert (Hr : Row.created_at
                 (if String.eqb (Row.thread_id r) tid
                  then set_status status (final_email_json final_email) now r
                  else r) = Row.created_at r)
    by (now destruct (String.eqb (Row.thread_id r) tid)).
  rewrite Hx, Hr.
  destruct (Row.created_at x <=? Row.created_at r); simpl; [reflexivity|].
  now rewrite IH.
Qed.

(** X8.  Updating a status does not reorder the history: the history of
    the updated store is the updated history. *)
Theorem get_email_history_update
  (tid status : string) (final_email : option (list (string * json)))
  (now : timestamp) (db : database) :
  get_email_history (update_email_status tid status final_email now db)
  = update_email_status tid status final_email now (get_email_history db).
Proof.
  unfold get_email_history.
  induction db as [|r db IH]; simpl; [reflexivity|].
  rewrite IH. apply insert_desc_update.
Qed.

End StoreUpdates.

(** * The final email, written and read back *)

Section FinalEmail.
Import Json Backend Samples.

Lemma parse_value_strings_array (l : list string) (fuel : nat) (rest : string) :
  (List.length l + 2 <= fuel)%nat ->
  parse_value (S fuel) (dumps (JArr (map JStr l)) ++ rest)
  = Some (JArr (map JStr l), rest).
Proof.
  intros Hfuel. rewrite dumps_string_array.
  cbn [append]. rewrite append_assoc. cbn [append].
  rewrite parse_value_array.
  destruct l as [|x l].
  - reflexivity.
  - destruct (join_starts_quote x l (String "]" rest)) as [t Et].
    rewrite Et, skip_ws_quote. change (Ascii.eqb quote "]") with false.
    cbv beta iota. rewrite <- Et.
    rewrite parse_elems_strings by (simpl in Hfuel; lia).
    reflexivity.
Qed.

(** One member of an object, read back, whatever its value. *)
Lemma parse_member_value (fuel : nat) (acc : list (string * json))
  (k tr : string) (v : json) (r : string) :
  parse_value fuel (skip_ws (String " " tr)) = Some (v, r) ->
  parse_members (S fuel) acc (dumps_str k ++ ": " ++ tr)
  = match skip_ws r with
    | String e r3 =>
        if Ascii.eqb e "}" then Some (dict_set k v acc, r3)
        else if Ascii.eqb e "," then
          parse_members fuel (dict_set k v acc) (skip_ws r3)
        else None
    | EmptyString => None
    end.
Proof.
  intros Hv.
  rewrite dumps_str_append, parse_members_step, scan_string_escape.
  change (skip_ws (": " ++ tr)) with (String ":" (String " " tr)).
  cbv beta iota. change (Ascii.eqb ":" ":") with true. cbv beta iota.
  now rewrite Hv.
Qed.

Lemma dumps_three_members (k1 k2 k3 a b : string) (l : list string) :
  dumps (JObj [(k1, JStr a); (k2, JStr b); (k3, JArr (map JStr l))])
  = String "{"
      (dumps_str k1 ++ ": " ++ dumps_str a ++ ", " ++
       dumps_str k2 ++ ": " ++ dumps_str b ++ ", " ++
       dumps_str k3 ++ ": " ++
       dumps (JArr (map JStr l)) ++ "}").
Proof.
  cbn [dumps map PyStr.join].
  change ("{" ++ ?x) with (String "{" x). f_equal.
  now rewrite !append_assoc.
Qed.

(** An object with two strings and a list of strings under three
    different keys, written by [json.dumps], is read back by
    [json.loads]. *)
Lemma loads_dumps_three_members (k1 k2 k3 a b : string) (l : list string) :
  String.eqb k1 k2 = false -> String.eqb k1 k3 = false ->
  String.eqb k2 k3 = false ->
  loads (dumps (JObj [(k1, JStr a); (k2, JStr b); (k3, JArr (map JStr l))]))
  = Some (JObj [(k1, JStr a); (k2, JStr b); (k3, JArr (map JStr l))]).
Proof.
  intros H12 H13 H23. rewrite dumps_three_members.
  unfold loads. change (skip_ws (String "{" ?r)) with (String "{" r).
  cbn [String.length].
  set (arr := dumps (JArr (map JStr l))).
  set (body_text := dumps_str k1 ++ ": " ++ dumps_str a ++ ", " ++
                    dumps_str k2 ++ ": " ++ dumps_str b ++ ", " ++
                    dumps_str k3 ++ ": " ++ arr ++ "}").
  assert (Hlen : (List.length l + 8 <= String.length body_text)%nat).
  { subst body_text arr. rewrite dumps_string_array.
    repeat (rewrite length_append || cbn [String.length]).
    pose proof (length_join_strings l).
    pose proof (length_dumps_str k1). pose proof (length_dumps_str k2).
    pose proof (length_dumps_str k3). lia. }
  destruct (String.length body_text) as [|[|[|[|n]]]] eqn:En;
    try (exfalso; lia).
  replace (2 * S (S (S (S (S n)))) + 2)%nat
    with (S (S (S (S (S (n + n + 7)))))) by lia.
  rewrite parse_value_object. subst body_text.
  rewrite dumps_str_append, skip_ws_quote.
  change (Ascii.eqb quote "}") with false. cbv beta iota.
  rewrite <- dumps_str_append.
  rewrite parse_member_string.
  change (skip_ws (", " ++ ?r)) with (String "," (String " " r)).
  cbv beta iota. change (Ascii.eqb "," "}") with false.
  change (Ascii.eqb "," ",") with true. cbv beta iota.
  change (skip_ws (String " " ?r)) with (skip_ws r).
  rewrite (dumps_str_append k2), skip_ws_quote, <- (dumps_str_append k2).
  rewrite parse_member_string.
  change (skip_ws (", " ++ ?r)) with (String "," (String " " r)).
  cbv beta iota. change (Ascii.eqb "," "}") with false.
  change (Ascii.eqb "," ",") with true. cbv beta iota.
  change (skip_ws (String " " ?r)) with (skip_ws r).
  rewrite (dumps_str_append k3), skip_ws_quote, <- (dumps_str_append k3).
  rewrite (parse_member_value _ _ k3 (arr ++ "}") (JArr (map JStr l)) "}").
  - change (skip_ws "}") with "}". cbv beta iota.
    change (Ascii.eqb "}" "}") with true. cbv beta iota.
    cbn [dict_set]. rewrite H12. cbn [dict_set]. rewrite H13, H23.
    reflexivity.
  - subst arr. rewrite dumps_string_array.
    change (skip_ws (String " " (String "[" ?x ++ "}")))
      with (String "[" x ++ "}").
    rewrite <- dumps_string_array.
    apply parse_value_strings_array. lia.
Qed.

(** The [dict] the review form stores as final email is read back by
    [json.loads] from its stored text. *)
Lemma loads_dumps_final_email (subject body : string) (l : list string) :
  loads (dumps (JObj (final_email_of subject body l)))
  = Some (JObj (final_email_of subject body l)).
Proof. now apply loads_dumps_three_members. Qed.

Lemma get_thread_by_id_update tid status final_email now db :
  get_thread_by_id tid (update_email_status tid status final_email now db)
  = option_map (set_status status (final_email_json final_email) now)
      (get_thread_by_id tid db).
Proof.
  induction db as [|r db IH]; simpl; [reflexivity|].
  destruct (String.eqb (Row.thread_id r) tid) eqn:E.
  - cbn. now rewrite E.
  - rewrite E. exact IH.
Qed.

(** X9.  A final email passed to [update_email_status] for a stored
    thread is read back: the record then has the requested status and a
    final email column that [json.loads] decodes to the subject, the
    body and the recipients that were passed, in their order. *)
Theorem final_email_round_trip
  (tid status subject body : string) (recipients : list string)
  (now : timestamp) (db : database) (r : Row.t) :
  get_thread_by_id tid db = Some r ->
  exists r' text,
    get_thread_by_id tid
      (update_email_status tid status
         (Some (final_email_of subject body recipients)) now db) = Some r'
    /\ Row.status r' = status
    /\ Row.updated_at r' = now
    /\ Row.final_email r' = Some text
    /\ loads text = Some (JObj (final_email_of subject body recipients)).
Proof.
  intros Hr. rewrite get_thread_by_id_update, Hr. cbn [option_map].
  eexists. eexists. split; [reflexivity|]. cbn.
  repeat split. apply loads_dumps_final_email.
Qed.

Lemma final_email_round_trip_witness :
  exists r' text,
    get_thread_by_id "t2"
      (update_email_status "t2" "sent"
         (Some (final_email_of "Other" "Hi" ["a@x.com"; "b@y.org"])) 9
         sample_store) = Some r'
    /\ Row.status r' = "sent"
    /\ Row.updated_at r' = 9
    /\ Row.final_email r' = Some text
    /\ loads text
       = Some (JObj (final_email_of "Other" "Hi" ["a@x.com"; "b@y.org"])).
Proof.
  eapply (final_email_round_trip "t2" "sent" "Other" "Hi"
            ["a@x.com"; "b@y.org"] 9 sample_store).
  reflexivity.
Defined.

(** X10.  After an update of a stored thread the final email column is
    NULL exactly when no final email or an empty one was passed,
    whatever the status. *)
Theorem final_email_null_iff
  (tid status : string) (final_email : option (list (string * json)))
  (now : timestamp) (db : database) (r : Row.t) :
  get_thread_by_id tid db = Some r ->
  exists r',
    get_thread_by_id tid
      (update_email_status tid status final_email now db) = Some r'
    /\ (Row.final_email r' = None
        <-> final_email = None \/ final_email = Some []).
Proof.
  intros Hr. rewrite get_thread_by_id_update, Hr. cbn [option_map].
  eexists. split; [reflexivity|]. cbn.
  destruct final_email as [[|m ms]|]; cbn; split; auto; try discriminate.
  intros [H | H]; discriminate H.
Qed.

Lemma final_email_null_iff_witness :
  exists r',
    get_thread_by_id "t1"
      (update_email_status "t1" "sent" (Some []) 9 sample_store) = Some r'
    /\ (Row.final_email r' = None
        <-> Some (@nil (string * json)) = None
            \/ Some (@nil (string * json)) = Some []).
Proof.
  eapply (final_email_null_iff "t1" "sent" (Some []) 9 sample_store).
  reflexivity.
Defined.

End FinalEmail.

(** * The side bar and the review form *)

Section Forms.
Import Json Backend App Samples.

Lemma history_perm (db : database) : Permutation db (get_email_history db).
Proof.
  unfold get_email_history.
  induction db as [|r db IH]; simpl; [constructor|].
  eapply perm_trans; [apply perm_skip, IH | apply insert_desc_perm].
Qed.

Lemma history_sorted (db : database) :
  StronglySorted newer_first (get_email_history db).
Proof.
  apply (Sorted_StronglySorted newer_first_trans).
  unfold get_email_history.
  induction db as [|r db IH]; simpl; [constructor|].
  now apply insert_desc_sorted.
Qed.

Lemma sorted_app_inv (l1 l2 : list Row.t) :
  StronglySorted newer_first (l1 ++ l2)%list ->
  forall a b, In a l1 -> In b l2 -> newer_first a b.
Proof.
  induction l1 as [|x l1 IH]; simpl; intros H a b Ha Hb; [contradiction|].
  inversion H as [|y l Hl Hall]; subst.
  destruct Ha as [<- | Ha].
  - apply (proj1 (Forall_forall _ _) Hall). apply in_or_app. now right.
  - now apply IH.
Qed.

(** X11.  The side bar shows the five newest records, or all of them
    when there are fewer: no record left out was created later than a
    record shown. *)
Theorem sidebar_history_newest (db : database) :
  List.length (sidebar_history db) = Nat.min 5 (List.length db)
  /\ exists hidden,
       Permutation db (sidebar_history db ++ hidden)%list
       /\ forall a b, In a (sidebar_history db) -> In b hidden ->
                      Row.created_at b <= Row.created_at a.
Proof.
  unfold sidebar_history. split.
  - rewrite length_firstn.
    now rewrite <- (Permutation_length (history_perm db)).
  - exists (skipn 5 (get_email_history db)).
    rewrite firstn_skipn. split; [apply history_perm|].
    apply sorted_app_inv. rewrite firstn_skipn. apply history_sorted.
Qed.

(** X12.  A successful "Send Email" on a stored thread marks it as sent
    and stores the subject, body and recipients that were sent as its
    final email; the subject and draft columns keep what was saved
    before, also when the text sent was edited since. *)
Theorem show_review_form_send
  (new_subject new_draft : string) (result : Mail.send_result)
  (now : timestamp) (s : session) (db : database)
  (brief : EmailBrief) (r : Row.t) :
  (exists c d, current_draft s = Some (String c d)) ->
  current_brief s = Some brief ->
  PyStr.strip new_subject <> EmptyString ->
  PyStr.strip new_draft <> EmptyString ->
  Mail.success result = true ->
  get_thread_by_id (thread_id s) db = Some r ->
  exists r' text,
    get_thread_by_id (thread_id s)
      (snd (show_review_form new_subject new_draft
              (Some (SendEmail result now)) (s, db))) = Some r'
    /\ Row.status r' = "sent"
    /\ Row.final_email r' = Some text
    /\ loads text
       = Some (JObj (final_email_of new_subject new_draft (recipients brief)))
    /\ Row.subject r' = Row.subject r
    /\ Row.draft r' = Row.draft r.
Proof.
  intros (c & d & Hd) Hb Hs Hn Hok Hr. unfold show_review_form.
  rewrite Hd. cbn [with_content current_brief thread_id]. rewrite Hb.
  destruct (PyStr.strip new_subject); [congruence|].
  destruct (PyStr.strip new_draft); [congruence|].
  rewrite Hok. cbn [snd].
  rewrite get_thread_by_id_update, Hr. cbn [option_map].
  eexists. eexists. split; [reflexivity|]. cbn.
  repeat split. apply (loads_dumps_final_email new_subject new_draft).
Qed.

Lemma show_review_form_send_witness :
  exists r' text,
    get_thread_by_id "t2"
      (snd (show_review_form "Other" "Hi there"
              (Some (SendEmail {| Mail.success := true;
                                  Mail.message := "ok" |} 9))
              (sample_session, sample_store))) = Some r'
    /\ Row.status r' = "sent"
    /\ Row.final_email r' = Some text
    /\ loads text
       = Some (JObj (final_email_of "Other" "Hi there"
                       ["a@x.com"; "b@y.org"]))
    /\ Row.subject r' = "Other"
    /\ Row.draft r' = "Hi".
Proof.
  apply (show_review_form_send "Other" "Hi there"
           {| Mail.success := true; Mail.message := "ok" |} 9
           sample_session sample_store sample_brief sample_row).
  - exists "H"%char, "ello". reflexivity.
  - reflexivity.
  - discriminate.
  - discriminate.
  - reflexivity.
  - reflexivity.
Defined.

(** X13.  "Send Email" writes nothing when the subject or the body is
    blank or when the delivery failed. *)
Theorem blocked_send_writes_nothing
  (new_subject new_draft : string) (result : Mail.send_result)
  (now : timestamp) (st : session * database) :
  PyStr.strip new_subject = EmptyString
  \/ PyStr.strip new_draft = EmptyString
  \/ Mail.success result = false ->
  snd (show_review_form new_subject new_draft
         (Some (SendEmail result now)) st) = snd st.
Proof.
  intros H. destruct st as [s db]. unfold show_review_form.
  destruct (current_draft s) as [[|c d]|]; cbn [snd]; try reflexivity.
  cbn [with_content current_brief].
  destruct (current_brief s); [|reflexivity].
  destruct (PyStr.strip new_subject); [reflexivity|].
  destruct (PyStr.strip new_draft); [reflexivity|].
  destruct H as [H | [H | H]]; try discriminate H.
  now rewrite H.
Qed.

Lemma blocked_send_writes_nothing_witness :
  snd (show_review_form "   " "Hi there"
         (Some (SendEmail {| Mail.success := true; Mail.message := "ok" |} 9))
         (sample_session, sample_store)) = sample_store.
Proof.
  apply (blocked_send_writes_nothing "   " "Hi there"
           {| Mail.success := true; Mail.message := "ok" |} 9
           (sample_session, sample_store)).
  left. reflexivity.
Defined.

(** X14.  "Load" brings back the draft, the subject and the thread id
    of a record but not its brief: "Save Draft" on the loaded thread
    then stores the purpose, the tone and the recipients of the brief
    the session still holds, and clears the final email of the
    record. *)
Theorem load_then_save_draft
  (email : Row.t) (s : session) (brief : EmailBrief)
  (new_subject new_draft : string) (created updated : timestamp)
  (db : database) :
  keys_agree db ->
  current_brief s = Some brief ->
  Row.draft email <> EmptyString ->
  get_thread_by_id (Row.thread_id email)
    (snd (show_review_form new_subject new_draft
            (Some (SaveDraft created updated)) (load email s, db)))
  = Some {| Row.id := Row.thread_id email;
            Row.thread_id := Row.thread_id email;
            Row.recipients := dumps (JArr (map JStr (recipients brief)));
            Row.subject := new_subject;
            Row.purpose := purpose brief;
            Row.tone := tone brief;
            Row.draft := new_draft;
            Row.final_email := None;
            Row.status := "saved";
            Row.created_at := created;
            Row.updated_at := updated |}.
Proof.
  intros Hk Hb Hd. unfold show_review_form, load.
  cbn [current_draft with_content current_brief thread_id].
  destruct (Row.draft email) as [|c d]; [congruence|].
  rewrite Hb. cbn [snd]. unfold save_email.
  rewrite get_thread_by_id_app,
    (get_thread_by_id_replaced (Row.thread_id email) db Hk).
  cbn [get_thread_by_id Row.thread_id]. now rewrite String.eqb_refl.
Qed.

Lemma load_then_save_draft_witness :
  Row.purpose sample_row = "Schedule a meeting"
  /\ get_thread_by_id "t2"
       (snd (show_review_form "Other" "Hi" (Some (SaveDraft 8 9))
               (load sample_row stale_session, sample_store)))
     = Some {| Row.id := "t2";
               Row.thread_id := "t2";
               Row.recipients := dumps (JArr [JStr "c@z.net"]);
               Row.subject := "Other";
               Row.purpose := "Cancel the order";
               Row.tone := "urgent";
               Row.draft := "Hi";
               Row.final_email := None;
               Row.status := "saved";
               Row.created_at := 8;
               Row.updated_at := 9 |}.
Proof.
  split; [reflexivity|].
  apply (load_then_save_draft sample_row stale_session other_brief
           "Other" "Hi" 8 9 sample_store).
  - apply keys_agree_run_calls.
  - reflexivity.
  - discriminate.
Defined.

(** X15.  A session without a brief, as it is after "Load" in a fresh
    session, cannot write to the store: whatever is typed and whichever
    button is pressed, the review form leaves every record as it is. *)
Theorem show_review_form_without_brief
  (new_subject new_draft : string) (clicked : option button)
  (s : session) (db : database) :
  current_brief s = None ->
  snd (show_review_form new_subject new_draft clicked (s, db)) = db.
Proof.
  intros Hb. unfold show_review_form.
  destruct (current_draft s) as [[|c d]|]; cbn [snd]; try reflexivity.
  cbn [with_content current_brief]. rewrite Hb.
  now destruct clicked.
Qed.

Lemma show_review_form_without_brief_witness :
  snd (show_review_form "Meeting" "Hello" (Some (SaveDraft 8 9))
         (load {| Row.id := "t1"; Row.thread_id := "t1";
                  Row.recipients := "[]"; Row.subject := "Meeting";
                  Row.purpose := "p"; Row.tone := "formal";
                  Row.draft := "Hello"; Row.final_email := None;
                  Row.status := "draft";
                  Row.created_at := 1; Row.updated_at := 2 |}
               {| current_draft := None; current_subject := None;
                  current_brief := None; thread_id := "t7" |},
          sample_store)) = sample_store.
Proof.
  apply show_review_form_without_brief. reflexivity.
Defined.

(** The review form never changes the thread id or the brief of
    the session, and keeps the two key columns of every row equal. *)
Theorem show_review_form_keeps
  (new_subject new_draft : string) (clicked : option button)
  (s : session) (db : database) :
  let st' := show_review_form new_subject new_draft clicked (s, db) in
  thread_id (fst st') = thread_id s
  /\ current_brief (fst st') = current_brief s
  /\ (keys_agree db -> keys_agree (snd st')).
Proof.
  cbv zeta. unfold show_review_form.
  destruct (current_draft s) as [[|c d]|];
    [now repeat split | | now repeat split].
  cbn [with_content current_brief thread_id].
  destruct (current_brief s) as [brief|] eqn:Hb;
    [|destruct clicked; cbn; rewrite Hb; now repeat split].
  destruct clicked as [[result now | feedback response | created updated]|].
  - destruct (PyStr.strip new_subject); [cbn; rewrite Hb; now repeat split|].
    destruct (PyStr.strip new_draft); [cbn; rewrite Hb; now repeat split|].
    destruct (Mail.success result); [|cbn; rewrite Hb; now repeat split].
    cbn. rewrite Hb. repeat split. apply keys_agree_update.
  - destruct (PyStr.strip feedback); cbn; rewrite Hb; now repeat split.
  - cbn. rewrite Hb. repeat split. apply keys_agree_save.
  - cbn. rewrite Hb. now repeat split.
Qed.

End Forms.

(** * More on the string primitives *)

Section StripFacts.

Lemma lstrip_all_space (w s : string) :
  PyStr.all_space w = true -> PyStr.lstrip (w ++ s) = PyStr.lstrip s.
Proof.
  induction w as [|c w IH]; simpl; intros H; [reflexivity|].
  apply andb_true_iff in H. destruct H as [Hc Hw].
  rewrite Hc. now apply IH.
Qed.

Lemma rstrip_all_space (w : string) :
  PyStr.all_space w = true -> PyStr.rstrip w = EmptyString.
Proof.
  induction w as [|c w IH]; simpl; intros H; [reflexivity|].
  apply andb_true_iff in H. destruct H as [Hc Hw].
  now rewrite (IH Hw), Hc.
Qed.

Lemma rstrip_append_all_space (s w : string) :
  PyStr.all_space w = true -> PyStr.rstrip (s ++ w) = PyStr.rstrip s.
Proof.
  intros H. induction s as [|c s IH]; simpl.
  - now apply rstrip_all_space.
  - now rewrite IH.
Qed.

Lemma rstrip_last (c : ascii) (x : string) :
  PyStr.is_space c = false ->
  PyStr.rstrip (x ++ String c EmptyString) = x ++ String c EmptyString.
Proof.
  intros Hc. induction x as [|d x IH]; simpl.
  - now rewrite Hc.
  - rewrite IH. now destruct x.
Qed.

Lemma lstrip_idempotent (s : string) :
  PyStr.lstrip (PyStr.lstrip s) = PyStr.lstrip s.
Proof.
  induction s as [|c s IH]; simpl; [reflexivity|].
  destruct (PyStr.is_space c) eqn:E; [exact IH|].
  simpl. now rewrite E.
Qed.

Lemma rstrip_idempotent (s : string) :
  PyStr.rstrip (PyStr.rstrip s) = PyStr.rstrip s.
Proof.
  induction s as [|c s IH]; simpl; [reflexivity|].
  destruct (PyStr.rstrip s) as [|e t] eqn:E.
  - destruct (PyStr.is_space c) eqn:Hc; simpl; [reflexivity|].
    now rewrite Hc.
  - change (PyStr.rstrip (String c (String e t)))
      with (match PyStr.rstrip (String e t) with
            | EmptyString =>
                if PyStr.is_space c then EmptyString else String c EmptyString
            | String a u => String c (String a u)
            end).
    now rewrite IH.
Qed.

(** What [lstrip] leaves is empty or starts with a character that is
    not white space. *)
Lemma lstrip_head (s : string) :
  PyStr.lstrip s = EmptyString
  \/ exists c t, PyStr.lstrip s = String c t /\ PyStr.is_space c = false.
Proof.
  induction s as [|c s IH]; simpl; [now left|].
  destruct (PyStr.is_space c) eqn:E; [exact IH|].
  right. eauto.
Qed.

Lemma lstrip_rstrip_head (c : ascii) (t : string) :
  PyStr.is_space c = false ->
  PyStr.lstrip (PyStr.rstrip (String c t)) = PyStr.rstrip (String c t).
Proof.
  intros Hc. simpl.
  destruct (PyStr.rstrip t); rewrite ?Hc; simpl; now rewrite Hc.
Qed.

Lemma strip_idempotent (s : string) :
  PyStr.strip (PyStr.strip s) = PyStr.strip s.
Proof.
  unfold PyStr.strip.
  destruct (lstrip_head s) as [E | (c & t & E & Hc)]; rewrite E.
  - reflexivity.
  - rewrite (lstrip_rstrip_head c t Hc). apply rstrip_idempotent.
Qed.

(** A text that starts and ends with characters that are not white
    space comes out of [strip] as it is, whatever white space surrounds
    it. *)
Lemma strip_padded (w1 w2 : string) (c d : ascii) (x : string) :
  PyStr.all_space w1 = true -> PyStr.all_space w2 = true ->
  PyStr.is_space c = false -> PyStr.is_space d = false ->
  PyStr.strip (w1 ++ (String c x ++ String d EmptyString) ++ w2)
  = String c x ++ String d EmptyString.
Proof.
  intros H1 H2 Hc Hd. unfold PyStr.strip.
  rewrite (lstrip_all_space w1 _ H1).
  cbn [append PyStr.lstrip]. rewrite Hc.
  change (String c ((x ++ String d EmptyString) ++ w2))
    with ((String c x ++ String d EmptyString) ++ w2).
  rewrite (rstrip_append_all_space _ w2 H2).
  change (String c x ++ String d EmptyString)
    with ((String c x) ++ String d EmptyString).
  now apply rstrip_last.
Qed.

Lemma substring_short (s : string) :
  forall n, (String.length s <= n)%nat -> substring 0 n s = s.
Proof.
  induction s as [|c s IH]; intros [|n] H; simpl in *; try reflexivity;
    try lia.
  rewrite IH; [reflexivity | lia].
Qed.

Lemma length_substring_le (s : string) :
  forall n, (String.length (substring 0 n s) <= n)%nat.
Proof.
  induction s as [|c s IH]; intros [|n]; simpl; try lia.
  specialize (IH n). lia.
Qed.

Lemma substring_zero (s : string) : forall n, substring n 0 s = EmptyString.
Proof.
  induction s as [|c s IH]; intros [|n]; simpl; try reflexivity. apply IH.
Qed.

End StripFacts.

(** * More on the generation steps *)

Section GenerationMore.
Import Json Backend Samples.

(** X17.  The subject of the fallback has at most 64 characters, and
    for a purpose of at most 50 characters it is ["Regarding: "], the
    whole purpose and ["..."]: the dots are added also when nothing was
    cut. *)
Theorem fallback_subject_bounds (brief : EmailBrief) :
  (String.length (fallback_subject brief) <= 64)%nat
  /\ ((String.length (purpose brief) <= 50)%nat ->
      fallback_subject brief = "Regarding: " ++ purpose brief ++ "...").
Proof.
  rewrite fallback_subject_eq. split.
  - rewrite !length_append. cbn [String.length].
    pose proof (length_substring_le (purpose brief) 50). lia.
  - intros H. now rewrite substring_short.
Qed.

Lemma fallback_subject_bounds_witness :
  fallback_subject sample_brief = "Regarding: Schedule a meeting...".
Proof.
  apply (proj2 (fallback_subject_bounds sample_brief)). simpl. lia.
Defined.

Lemma find_from_absent (a rest sub : string) :
  index 0 sub rest = None ->
  PyStr.find_from (a ++ rest) sub (PyStr.len a) = -1.
Proof.
  intros H. unfold PyStr.find_from.
  rewrite clamp_index_inside
    by (unfold PyStr.len; rewrite length_append; lia).
  unfold PyStr.len. rewrite Nat2Z.id, index_skip, H. reflexivity.
Qed.

Lemma slice_to_last (a rest : string) :
  PyStr.slice (a ++ rest) (PyStr.len a) (-1)
  = substring 0 (String.length rest - 1) rest.
Proof.
  unfold PyStr.slice, PyStr.clamp_index, PyStr.len.
  rewrite length_append.
  assert (Ha : (Z.of_nat (String.length a) <? 0) = false)
    by (apply Z.ltb_ge; lia).
  rewrite Ha. change (-1 <? 0) with true. cbv iota.
  rewrite Z.min_l by lia. rewrite Nat2Z.id, substring_skip.
  f_equal. lia.
Qed.

(** X18.  When the opening fence is never closed, the payload is the
    text after the fence without its last character, stripped: the
    search for the closing fence answers [-1], which the slice takes as
    "up to the last character". *)
Theorem extract_json_str_unclosed (pre rest : string) :
  index 0 fence_open (pre ++ fence_open) = Some (String.length pre) ->
  index 0 fence rest = None ->
  extract_json_str (pre ++ fence_open ++ rest)
  = PyStr.strip (substring 0 (String.length rest - 1) rest).
Proof.
  intros Hopen Hclose. unfold extract_json_str.
  rewrite (contains_first _ _ _ Hopen), (find_first _ _ _ Hopen).
  assert (Hstart : PyStr.len pre + 7 = PyStr.len (pre ++ fence_open))
    by len_solve.
  rewrite Hstart, <- (append_assoc pre fence_open).
  rewrite (find_from_absent _ _ _ Hclose).
  now rewrite slice_to_last.
Qed.

Lemma extract_json_str_unclosed_witness :
  extract_json_str ("Here: " ++ fence_open ++ " [1, 2]") = "[1, 2".
Proof.
  apply (extract_json_str_unclosed "Here: " " [1, 2]"); reflexivity.
Defined.

Lemma slice_empty (s : string) (a b : Z) :
  0 <= b <= a -> PyStr.slice s a b = EmptyString.
Proof.
  intros H. unfold PyStr.slice, PyStr.clamp_index.
  assert (Ha : (a <? 0) = false) by (apply Z.ltb_ge; lia).
  assert (Hb : (b <? 0) = false) by (apply Z.ltb_ge; lia).
  rewrite Ha, Hb.
  replace (Z.to_nat (Z.min b (PyStr.len s) - Z.min a (PyStr.len s)))
    with 0%nat by lia.
  apply substring_zero.
Qed.

(** X19.  When the response has no fence and its last closing brace
    stands before its first opening brace, the payload is empty. *)
Theorem extract_json_str_crossed (pre mid post : string) :
  index 0 fence_open (pre ++ "}" ++ mid ++ "{" ++ post) = None ->
  index 0 "{" (pre ++ "}" ++ mid) = None ->
  index 0 "}" post = None ->
  index 0 "}" mid = None ->
  extract_json_str (pre ++ "}" ++ mid ++ "{" ++ post) = EmptyString.
Proof.
  intros Hnofence Hopen Hpost Hmid. unfold extract_json_str.
  rewrite (contains_absent _ _ Hnofence).
  set (response := pre ++ "}" ++ mid ++ "{" ++ post).
  assert (Hfirst : index 0 "{" response
                   = Some (String.length (pre ++ "}" ++ mid))).
  { subst response.
    replace (pre ++ "}" ++ mid ++ "{" ++ post)
      with ((pre ++ "}" ++ mid) ++ String "{" post)
      by (now rewrite !append_assoc).
    now apply index_char_first. }
  assert (Hlast : PyStr.rindex "}" response = Some (String.length pre)).
  { subst response. apply rindex_char_last.
    change (mid ++ "{" ++ post) with (mid ++ String "{" post).
    clear - Hpost Hmid. apply rindex_char_none in Hpost.
    induction mid as [|c mid IH]; cbn [append].
    - rewrite rindex_cons, Hpost. now rewrite prefix_char.
    - rewrite index_0_cons, prefix_char in Hmid.
      destruct (ascii_dec "}" c); [discriminate|].
      destruct (index 0 "}" mid) eqn:E; [discriminate|].
      rewrite rindex_cons, (IH eq_refl), prefix_char.
      now destruct (ascii_dec "}" c). }
  assert (Hc1 : PyStr.contains "{" response = true)
    by (unfold PyStr.contains; now rewrite Hfirst).
  assert (Hc2 : PyStr.contains "}" response = true).
  { unfold PyStr.contains.
    destruct (index 0 "}" response) eqn:E; [reflexivity|].
    apply rindex_char_none in E. congruence. }
  rewrite Hc1, Hc2. cbn [andb].
  unfold PyStr.find, PyStr.find_from, PyStr.rfind.
  rewrite clamp_index_inside by (unfold PyStr.len; lia).
  change (Z.to_nat 0) with 0%nat. rewrite Hfirst, Hlast.
  apply slice_empty. rewrite !length_append. cbn [String.length]. lia.
Qed.

Lemma extract_json_str_crossed_witness :
  extract_json_str ("a" ++ "}" ++ " then " ++ "{" ++ "b") = EmptyString.
Proof. apply extract_json_str_crossed; reflexivity. Defined.

Lemma dumps_object_braces (members : list (string * json)) :
  exists mid, dumps (JObj members) = "{" ++ mid ++ "}".
Proof. cbn [dumps]. eauto. Qed.

Lemma loads_requirements_answer (p subj : string) (rules : list string) :
  loads (dumps (JObj (requirements_answer p subj rules)))
  = Some (JObj (requirements_answer p subj rules)).
Proof. now apply loads_dumps_three_members. Qed.

(** X20.  Prose around the JSON object is tolerated: when the response
    has no fence, no opening brace before the object and no closing
    brace after it, [process_requirements] returns the suggested
    subject of the object and the object itself as context. *)
Theorem process_requirements_in_prose
  (brief : EmailBrief) (pre post p subj : string) (rules : list string) :
  let answer := JObj (requirements_answer p subj rules) in
  let response := pre ++ dumps answer ++ post in
  index 0 fence_open response = None ->
  index 0 "{" pre = None ->
  index 0 "}" post = None ->
  process_requirements loads brief response
  = {| context := dumps answer; subject := JStr subj |}.
Proof.
  intros answer response Hnofence Hpre Hpost. subst response answer.
  unfold process_requirements.
  destruct (dumps_object_braces (requirements_answer p subj rules))
    as [mid Hmid].
  assert (Hx : extract_json_str
                 (pre ++ dumps (JObj (requirements_answer p subj rules))
                      ++ post)
               = dumps (JObj (requirements_answer p subj rules))).
  { rewrite Hmid in Hnofence |- *.
    apply (extract_braces _ pre mid post).
    repeat split; try assumption.
    now rewrite !append_assoc. }
  rewrite Hx, loads_requirements_answer. reflexivity.
Qed.

Lemma process_requirements_in_prose_witness :
  process_requirements loads sample_brief
    ("Sure, here you go: "
     ++ dumps (JObj (requirements_answer "Ask for a slot" "Meeting request"
                       ["max 150 words"]))
     ++ " Let me know.")
  = {| context := dumps (JObj (requirements_answer "Ask for a slot"
                                 "Meeting request" ["max 150 words"]));
       subject := JStr "Meeting request" |}.
Proof.
  apply (process_requirements_in_prose sample_brief "Sure, here you go: "
           " Let me know." "Ask for a slot" "Meeting request"
           ["max 150 words"]); reflexivity.
Defined.

(** X21.  The same answer inside a fenced block, with white space
    between the fences and the object, is found as well, provided the
    object holds no run of three backticks. *)
Theorem process_requirements_fenced
  (brief : EmailBrief) (pre w1 w2 post p subj : string)
  (rules : list string) :
  let answer := JObj (requirements_answer p subj rules) in
  let mid := w1 ++ dumps answer ++ w2 in
  PyStr.all_space w1 = true -> PyStr.all_space w2 = true ->
  index 0 fence_open (pre ++ fence_open) = Some (String.length pre) ->
  index 0 fence (mid ++ fence) = Some (String.length mid) ->
  process_requirements loads brief
    (pre ++ fence_open ++ mid ++ fence ++ post)
  = {| context := dumps answer; subject := JStr subj |}.
Proof.
  intros answer mid H1 H2 Hopen Hclose.
  unfold process_requirements.
  rewrite (extract_fenced _ mid)
    by (exists pre, post; repeat split; assumption).
  destruct (dumps_object_braces (requirements_answer p subj rules))
    as [inner Hinner].
  assert (Hs : PyStr.strip mid = dumps answer).
  { subst mid answer. rewrite Hinner.
    change ("{" ++ inner ++ "}") with (String "{" inner ++ String "}" "").
    now apply strip_padded. }
  rewrite Hs. subst answer. rewrite loads_requirements_answer.
  reflexivity.
Qed.

Lemma process_requirements_fenced_witness :
  process_requirements loads sample_brief
    ("Here it is: " ++ fence_open ++
     ("
" ++ dumps (JObj (requirements_answer "Ask for a slot" "Meeting request"
                   ["max 150 words"])) ++ "
") ++ fence ++ " Anything else?")
  = {| context := dumps (JObj (requirements_answer "Ask for a slot"
                                 "Meeting request" ["max 150 words"]));
       subject := JStr "Meeting request" |}.
Proof.
  apply (process_requirements_fenced sample_brief "Here it is: " "
" "
" " Anything else?" "Ask for a slot" "Meeting request" ["max 150 words"]);
    reflexivity.
Defined.

(** X22.  The drafts come out stripped: stripping the text returned by
    [create_draft] or [improve_draft] once more changes nothing. *)
Theorem drafts_are_stripped
  (brief : EmailBrief) (context subject original feedback response : string) :
  PyStr.strip (draft (create_draft brief context subject response))
  = draft (create_draft brief context subject response)
  /\ PyStr.strip (improve_draft original feedback brief response)
     = improve_draft original feedback brief response.
Proof. split; apply strip_idempotent. Qed.

Lemma dict_get_absent (members : list (string * json)) (k : string)
  (default : json) :
  (forall v, ~ In (k, v) members) -> dict_get members k default = default.
Proof.
  induction members as [|[k' v'] members IH]; simpl; intros H;
    [reflexivity|].
  destruct (String.eqb_spec k' k) as [E | E].
  - subst k'. now destruct (H v' (or_introl eq_refl)).
  - apply IH. intros v Hv. apply (H v). now right.
Qed.

Lemma dict_get_present (members : list (string * json)) (k : string)
  (v default : json) :
  NoDup (map fst members) -> In (k, v) members ->
  dict_get members k default = v.
Proof.
  induction members as [|[k' v'] members IH]; simpl; intros Hnd Hin;
    [contradiction|].
  inversion Hnd as [|x l Hx Hl]; subst.
  destruct (String.eqb_spec k' k) as [E | E].
  - subst k'. destruct Hin as [[= ->] | Hin]; [reflexivity|].
    exfalso. apply Hx. now apply (in_map fst) in Hin.
  - destruct Hin as [[= ? ?] | Hin]; [congruence|]. now apply IH.
Qed.

(** X23.  When the payload decodes to an object, the subject returned
    is the value that stands under ["subject_suggestion"], of whatever
    type it is, and the empty string when the object has no such
    key. *)
Theorem process_requirements_missing_subject
  (json_loads : string -> option json) (brief : EmailBrief)
  (response : string) (members : list (string * json)) :
  json_loads (extract_json_str response) = Some (JObj members) ->
  NoDup (map fst members) ->
  ((forall v, ~ In ("subject_suggestion", v) members) ->
   subject (process_requirements json_loads brief response)
   = JStr EmptyString)
  /\ (forall v, In ("subject_suggestion", v) members ->
       subject (process_requirements json_loads brief response) = v).
Proof.
  intros Hv Hnd. unfold process_requirements. rewrite Hv. cbn [subject].
  split.
  - intros Hk. now apply dict_get_absent.
  - intros v Hin. now apply dict_get_present.
Qed.

Lemma process_requirements_missing_subject_witness :
  subject (process_requirements loads sample_brief "{}") = JStr EmptyString
  /\ subject (process_requirements loads sample_brief
                ("{" ++ dumps_str "subject_suggestion" ++ ": 5}"))
     = JInt 5.
Proof.
  split.
  - apply (proj1 (process_requirements_missing_subject loads sample_brief
                    "{}" [] eq_refl (NoDup_nil _))).
    intros v [].
  - apply (proj2 (process_requirements_missing_subject loads sample_brief
                    ("{" ++ dumps_str "subject_suggestion" ++ ": 5}")
                    [("subject_suggestion", JInt 5)] eq_refl
                    (NoDup_cons _ (@in_nil _ _) (NoDup_nil _)))).
    now left.
Defined.

End GenerationMore.

(** * More on the delivery *)

Section DeliveryMore.
Import Mail.

Variable config : smtp_config.
Variable EMAIL_USERNAME EMAIL_PASSWORD : option string.
Variable smtp : smtp_session -> smtp_outcome.

Lemma send_email_success (subject body : string) (recipients : list string)
  (sender_email sender_password : option string) (is_html : bool) :
  let out := send_email config EMAIL_USERNAME EMAIL_PASSWORD smtp
               subject body recipients sender_email sender_password is_html in
  success (fst out) = true
  <-> exists session, snd out = [session] /\ smtp session = Delivered.
Proof.
  cbv zeta. unfold send_email.
  destruct (py_or sender_email EMAIL_USERNAME) as [[|c u]|];
    try (cbn; split; [discriminate | intros (x & Hx & _); discriminate]).
  destruct (py_or sender_password EMAIL_PASSWORD) as [[|d w]|];
    try (cbn; split; [discriminate | intros (x & Hx & _); discriminate]).
  cbn [fst snd]. split.
  - intros H. eexists. split; [reflexivity|].
    destruct (smtp _); try discriminate H; reflexivity.
  - intros (x & [= <-] & Hx). now rewrite Hx.
Qed.

(** X24.  [send_email] reports a success exactly when it opened a
    session and that session delivered the message; and it never opens
    more than one session. *)
Theorem mail_success_iff_delivered
  (subject body : string) (recipients : list string)
  (sender_email sender_password : option string) (is_html : bool) :
  let out := send_email config EMAIL_USERNAME EMAIL_PASSWORD smtp
               subject body recipients sender_email sender_password is_html in
  (success (fst out) = true
   <-> exists session, snd out = [session] /\ smtp session = Delivered)
  /\ (List.length (snd out) <= 1)%nat.
Proof.
  cbv zeta. split; [apply send_email_success|].
  unfold send_email.
  destruct (py_or sender_email EMAIL_USERNAME) as [[|c u]|];
    try (cbn; lia).
  destruct (py_or sender_password EMAIL_PASSWORD) as [[|d w]|]; cbn; lia.
Qed.

(** An argument wins over the environment, and an empty string
    counts as no argument: a non-empty sender or password passed to
    [send_email] acts as if the environment variable held it, an empty
    one as if nothing had been passed. *)
Theorem send_email_credentials
  (subject body : string) (recipients : list string)
  (sender_email sender_password : option string) (is_html : bool) :
  send_email config EMAIL_USERNAME EMAIL_PASSWORD smtp
    subject body recipients (Some EmptyString) sender_password is_html
  = send_email config EMAIL_USERNAME EMAIL_PASSWORD smtp
      subject body recipients None sender_password is_html
  /\ send_email config EMAIL_USERNAME EMAIL_PASSWORD smtp
       subject body recipients sender_email (Some EmptyString) is_html
     = send_email config EMAIL_USERNAME EMAIL_PASSWORD smtp
         subject body recipients sender_email None is_html
  /\ (forall c u,
        send_email config EMAIL_USERNAME EMAIL_PASSWORD smtp
          subject body recipients (Some (String c u)) sender_password is_html
        = send_email config (Some (String c u)) EMAIL_PASSWORD smtp
            subject body recipients None sender_password is_html)
  /\ (forall c p,
        send_email config EMAIL_USERNAME EMAIL_PASSWORD smtp
          subject body recipients sender_email (Some (String c p)) is_html
        = send_email config EMAIL_USERNAME (Some (String c p)) smtp
            subject body recipients sender_email None is_html).
Proof. repeat split. Qed.

Variable provider : string.
Variable connect : smtp_config -> string -> string -> option string.

(** X25.  The connection test tries the very credentials [send_email]
    uses: it attempts no login exactly when [send_email] opens no
    session, it logs in with the user and password of that session
    otherwise, and it reports a success exactly when that login went
    through. *)
Theorem test_connection_same_credentials
  (subject body : string) (recipients : list string)
  (sender_email sender_password : option string) (is_html : bool) :
  let sent := send_email config EMAIL_USERNAME EMAIL_PASSWORD smtp
                subject body recipients sender_email sender_password is_html in
  let tested := test_connection config provider EMAIL_USERNAME EMAIL_PASSWORD
                  connect sender_email sender_password in
  (snd tested = [] <-> snd sent = [])
  /\ (forall session, snd sent = [session] ->
        snd tested = [(login_user session, login_password session)])
  /\ (success (fst tested) = true
      <-> exists user password,
            snd tested = [(user, password)]
            /\ connect config user password = None).
Proof.
  cbv zeta. unfold send_email, test_connection.
  destruct (py_or sender_email EMAIL_USERNAME) as [[|c u]|];
    try (cbn; repeat split; try discriminate;
         intros (x & y & H & _); discriminate H).
  destruct (py_or sender_password EMAIL_PASSWORD) as [[|d w]|];
    try (cbn; repeat split; try discriminate;
         intros (x & y & H & _); discriminate H).
  cbn [fst snd]. repeat split; try discriminate.
  - intros session [= <-]. reflexivity.
  - intros H. eexists. eexists. split; [reflexivity|].
    destruct (connect config (String c u) (String d w));
      [discriminate H | reflexivity].
  - intros (x & y & [= <- <-] & Hc). now rewrite Hc.
Qed.

Variable import : Sending.import_outcome.

(** X26.  Through the backend, a success is reported exactly when the
    mail module could be imported and its session delivered the
    message; when the import fails no session is opened. *)
Theorem backend_send_email_success_iff
  (subject body : string) (recipients : list string) :
  let out := Sending.send_email import config EMAIL_USERNAME EMAIL_PASSWORD
               smtp subject body recipients in
  (success (fst out) = true
   <-> import = Sending.Imported
       /\ exists session, snd out = [session] /\ smtp session = Delivered)
  /\ (import <> Sending.Imported -> snd out = []).
Proof.
  cbv zeta. unfold Sending.send_email.
  destruct import as [| |e]; cbn [fst snd success].
  - split; [|intros H; now destruct H].
    rewrite (send_email_success subject body recipients None None false).
    split; [intros H; split; [reflexivity | exact H] | intros [_ H]; exact H].
  - split; [|reflexivity].
    split; [discriminate | intros [H _]; discriminate H].
  - split; [|reflexivity].
    split; [discriminate | intros [H _]; discriminate H].
Qed.

End DeliveryMore.

(** * The creation form: recipients and brief *)

Section CreationForm.
Import Backend App Samples.

Lemma has_char_lstrip (c : ascii) (s : string) :
  PyStr.has_char c s = false -> PyStr.has_char c (PyStr.lstrip s) = false.
Proof.
  induction s as [|d s IH]; simpl; intros H; [reflexivity|].
  apply orb_false_iff in H. destruct H as [Hd Hs].
  destruct (PyStr.is_space d); [now apply IH|].
  simpl. now rewrite Hd, Hs.
Qed.

Lemma has_char_rstrip (c : ascii) (s : string) :
  PyStr.has_char c s = false -> PyStr.has_char c (PyStr.rstrip s) = false.
Proof.
  induction s as [|d s IH]; simpl; intros H; [reflexivity|].
  apply orb_false_iff in H. destruct H as [Hd Hs].
  specialize (IH Hs).
  destruct (PyStr.rstrip s) as [|e t].
  - destruct (PyStr.is_space d); simpl; [reflexivity|]. now rewrite Hd.
  - cbn [PyStr.has_char] in IH |- *. now rewrite Hd, IH.
Qed.

Lemma has_char_strip (c : ascii) (s : string) :
  PyStr.has_char c s = false -> PyStr.has_char c (PyStr.strip s) = false.
Proof. intros H. now apply has_char_rstrip, has_char_lstrip. Qed.

Lemma split_cons (sep c : ascii) (s : string) :
  PyStr.split sep (String c s) =
  if Ascii.eqb c sep then EmptyString :: PyStr.split sep s
  else match PyStr.split sep s with
       | x :: rest => String c x :: rest
       | [] => [String c EmptyString]
       end.
Proof. reflexivity. Qed.

Lemma split_not_nil (sep : ascii) (s : string) : PyStr.split sep s <> [].
Proof.
  induction s as [|c s IH]; [discriminate|]. rewrite split_cons.
  destruct (Ascii.eqb c sep); [discriminate|].
  destruct (PyStr.split sep s); [contradiction | discriminate].
Qed.

(** No line holds the separator. *)
Lemma split_lines_clean (sep : ascii) (s : string) :
  Forall (fun l => PyStr.has_char sep l = false) (PyStr.split sep s).
Proof.
  induction s as [|c s IH]; [repeat constructor|]. rewrite split_cons.
  destruct (Ascii.eqb c sep) eqn:E; [constructor; [reflexivity | exact IH]|].
  destruct (PyStr.split sep s) as [|x rest].
  - repeat constructor. simpl. now rewrite E.
  - inversion IH as [|y l Hy Hl]; subst. constructor; [|exact Hl].
    simpl. now rewrite E, Hy.
Qed.

Lemma split_clean (sep : ascii) (x : string) :
  PyStr.has_char sep x = false -> PyStr.split sep x = [x].
Proof.
  induction x as [|c x IH]; simpl; intros H; [reflexivity|].
  apply orb_false_iff in H. destruct H as [Hc Hx].
  now rewrite Hc, (IH Hx).
Qed.

Lemma split_append (sep : ascii) (x rest : string) :
  PyStr.has_char sep x = false ->
  PyStr.split sep (x ++ String sep rest) = x :: PyStr.split sep rest.
Proof.
  induction x as [|c x IH]; intros H.
  - cbn [append]. rewrite split_cons. now rewrite Ascii.eqb_refl.
  - simpl in H. apply orb_false_iff in H. destruct H as [Hc Hx].
    cbn [append]. rewrite split_cons, Hc, (IH Hx). reflexivity.
Qed.

(** Joining lines and splitting them again gives the lines back. *)
Lemma split_join (sep : ascii) (l : list string) :
  l <> [] ->
  Forall (fun e => PyStr.has_char sep e = false) l ->
  PyStr.split sep (PyStr.join (String sep EmptyString) l) = l.
Proof.
  intros Hne H. induction H as [|x l Hx Hl IH]; [contradiction|].
  destruct l as [|y l].
  - cbn [PyStr.join]. now apply split_clean.
  - change (PyStr.join (String sep EmptyString) (x :: y :: l))
      with (x ++ String sep (PyStr.join (String sep EmptyString) (y :: l))).
    rewrite (split_append sep x _ Hx). f_equal. apply IH. discriminate.
Qed.

(** X27.  Every recipient read from the creation form is non-empty, has
    no white space around it and holds no line feed. *)
Theorem parse_recipients_clean (text : string) :
  Forall (fun e => e <> EmptyString /\ PyStr.strip e = e
                   /\ PyStr.has_char "010" e = false)
    (parse_recipients text).
Proof.
  unfold parse_recipients. apply Forall_forall. intros e He.
  apply filter_In in He. destruct He as [He Hne].
  apply in_map_iff in He. destruct He as (l & <- & Hl).
  repeat split.
  - intros E. now rewrite E in Hne.
  - apply strip_idempotent.
  - apply has_char_strip.
    exact (proj1 (Forall_forall _ _) (split_lines_clean "010" text) l Hl).
Qed.

Lemma map_strip_fixed (l : list string) :
  Forall (fun e => PyStr.strip e = e) l -> map PyStr.strip l = l.
Proof.
  induction 1 as [|x l Hx _ IH]; simpl; [reflexivity|]. now rewrite Hx, IH.
Qed.

Lemma filter_nonempty_fixed (l : list string) :
  Forall (fun e => e <> EmptyString) l ->
  filter (fun e => match e with EmptyString => false | _ => true end) l = l.
Proof.
  induction 1 as [|x l Hx _ IH]; simpl; [reflexivity|].
  destruct x; [contradiction|]. now rewrite IH.
Qed.

(** X28.  Addresses written one per line are read back as they were:
    a list of non-empty addresses without white space around them and
    without line feeds, joined with line feeds, gives the same list in
    the same order. *)
Theorem parse_recipients_join (l : list string) :
  Forall (fun e => e <> EmptyString /\ PyStr.strip e = e
                   /\ PyStr.has_char "010" e = false) l ->
  parse_recipients (PyStr.join (String "010" EmptyString) l) = l.
Proof.
  intros H. unfold parse_recipients.
  destruct l as [|x l]; [reflexivity|].
  rewrite split_join.
  - rewrite map_strip_fixed, filter_nonempty_fixed; [reflexivity | |];
      eapply Forall_impl; try exact H; cbv beta; tauto.
  - discriminate.
  - eapply Forall_impl; [|exact H]. cbv beta. tauto.
Qed.

Lemma parse_recipients_join_witness :
  parse_recipients "a@x.com
b@y.org" = ["a@x.com"; "b@y.org"].
Proof.
  apply (parse_recipients_join ["a@x.com"; "b@y.org"]).
  repeat constructor; discriminate.
Defined.

Lemma lstrip_all_space_empty (s : string) :
  PyStr.all_space s = true -> PyStr.lstrip s = EmptyString.
Proof.
  induction s as [|c s IH]; simpl; intros H; [reflexivity|].
  apply andb_true_iff in H. destruct H as [Hc Hs]. rewrite Hc. now apply IH.
Qed.

(** [strip] gives the empty string exactly on a string of white
    space. *)
Lemma strip_empty_iff (s : string) :
  PyStr.strip s = EmptyString <-> PyStr.all_space s = true.
Proof.
  unfold PyStr.strip. split.
  - induction s as [|c s IH]; simpl; [reflexivity|].
    destruct (PyStr.is_space c) eqn:Hc; [exact IH|].
    simpl. destruct (PyStr.rstrip s); rewrite ?Hc; discriminate.
  - intros H. now rewrite (lstrip_all_space_empty s H).
Qed.

Lemma all_space_split (s : string) :
  PyStr.all_space s = forallb PyStr.all_space (PyStr.split "010" s).
Proof.
  induction s as [|c s IH]; [reflexivity|].
  rewrite split_cons. cbn [PyStr.all_space]. rewrite IH.
  destruct (Ascii.eqb_spec c "010") as [-> | Hc]; [reflexivity|].
  pose proof (split_not_nil "010" s) as Hne.
  destruct (PyStr.split "010" s) as [|x rest]; [contradiction|].
  cbn [forallb PyStr.all_space]. now rewrite andb_assoc.
Qed.

Lemma parse_recipients_nil (text : string) :
  parse_recipients text = [] -> PyStr.all_space text = true.
Proof.
  unfold parse_recipients. rewrite all_space_split.
  induction (PyStr.split "010" text) as [|l lines IH]; [reflexivity|].
  cbn [map filter forallb].
  destruct (PyStr.strip l) eqn:E; [|discriminate].
  intros H. apply strip_empty_iff in E. rewrite E. now apply IH.
Qed.

(** X29.  The creation form stops exactly when the recipients or the
    purpose are blank; a brief it builds has at least one recipient,
    and its purpose and tone are what was typed, the purpose with the
    white space around it. *)
Theorem create_brief_validates
  (recipients purpose tone constraints : string) :
  (create_brief recipients purpose tone constraints = None
   <-> PyStr.all_space recipients = true \/ PyStr.all_space purpose = true)
  /\ (forall brief,
        create_brief recipients purpose tone constraints = Some brief ->
        Backend.recipients brief <> []
        /\ Backend.purpose brief = purpose
        /\ Backend.tone brief = tone).
Proof.
  unfold create_brief.
  destruct (PyStr.strip recipients) as [|c r] eqn:Er.
  - split; [|discriminate].
    split; [intros _; left; now apply strip_empty_iff | reflexivity].
  - destruct (PyStr.strip purpose) as [|d p] eqn:Ep.
    + split; [|discriminate].
      split; [intros _; right; now apply strip_empty_iff | reflexivity].
    + split.
      * split; [discriminate|].
        intros [H | H]; apply strip_empty_iff in H; congruence.
      * intros brief [= <-]. cbn. repeat split.
        intros Hnil. apply parse_recipients_nil, strip_empty_iff in Hnil.
        congruence.
Qed.

Lemma create_brief_validates_witness :
  Backend.recipients sample_brief <> []
  /\ Backend.purpose sample_brief = "Schedule a meeting"
  /\ Backend.tone sample_brief = "professional".
Proof.
  apply (proj2 (create_brief_validates " a@x.com
b@y.org
" "Schedule a meeting" "professional" "") sample_brief).
  reflexivity.
Defined.

End CreationForm.

(** * The SMTP configuration of a provider *)

Section Providers.
Import Mail Samples.

Lemma lower_char_idempotent (c : ascii) :
  PyStr.lower_char (PyStr.lower_char c) = PyStr.lower_char c.
Proof. destruct c as [[] [] [] [] [] [] [] []]; reflexivity. Qed.

Lemma lower_idempotent (s : string) : PyStr.lower (PyStr.lower s) = PyStr.lower s.
Proof.
  induction s as [|c s IH]; simpl; [reflexivity|].
  now rewrite lower_char_idempotent, IH.
Qed.

(** X30.  Provider names are taken without regard to case; a name that
    is none of outlook, yahoo and custom gets the configuration of
    Gmail; and every configuration but the custom one uses port 587
    with STARTTLS. *)
Theorem service_config_providers (custom : smtp_config) (provider : string) :
  service_config custom (PyStr.lower provider) = service_config custom provider
  /\ (PyStr.lower provider <> "outlook" ->
      PyStr.lower provider <> "yahoo" ->
      PyStr.lower provider <> "custom" ->
      service_config custom provider = gmail)
  /\ (PyStr.lower provider <> "custom" ->
      smtp_port (service_config custom provider) = 587
      /\ use_tls (service_config custom provider) = true).
Proof.
  unfold service_config. rewrite lower_idempotent.
  split; [reflexivity|]. unfold _get_smtp_config.
  destruct (String.eqb_spec (PyStr.lower provider) "gmail");
    [repeat split|].
  destruct (String.eqb_spec (PyStr.lower provider) "outlook");
    [split; [contradiction | repeat split]|].
  destruct (String.eqb_spec (PyStr.lower provider) "yahoo");
    [split; [contradiction | repeat split]|].
  destruct (String.eqb_spec (PyStr.lower provider) "custom");
    [split; contradiction | repeat split].
Qed.

Lemma service_config_providers_witness :
  service_config sample_custom "yahoo" = service_config sample_custom "YAHOO"
  /\ service_config sample_custom "Gmial" = gmail
  /\ smtp_port (service_config sample_custom "Outlook") = 587.
Proof.
  split; [|split].
  - exact (proj1 (service_config_providers sample_custom "YAHOO")).
  - apply (proj1 (proj2 (service_config_providers sample_custom "Gmial")));
      discriminate.
  - apply (proj2 (proj2 (service_config_providers sample_custom "Outlook"))).
    discriminate.
Defined.

End Providers.

(** * The provider call on any body *)

Section ProviderBody.
Import Json Backend.

(** The typed model of the call is the untyped one on the answers it
    describes: for every typed outcome there is an exception text with
    which the two agree. *)
Lemma call_gemini_api_body_typed (o : api_outcome) :
  exists raised,
    call_gemini_api_body raised (outcome_json o) = JStr (call_gemini_api o).
Proof.
  destruct o as [e | e | [cs]]; try (exists EmptyString; reflexivity).
  destruct cs as [[|[ct] others]|]; try (exists EmptyString; reflexivity).
  destruct ct as [[ps]|]; try (exists EmptyString; reflexivity).
  destruct ps as [[|[t] ps]|]; try (exists EmptyString; reflexivity).
  - exists "list index out of range". reflexivity.
  - destruct t as [t|].
    + exists EmptyString. reflexivity.
    + exists "'text'". reflexivity.
Qed.

(** X16.  Whatever JSON value the provider's body decodes to, and
    whatever a failing step raises, [call_gemini_api] returns either a
    string that starts with ["API Error: "] or ["Error: "], or the
    value that stands under ["text"] in the first element of ["parts"]
    in the ["content"] of the first element of ["candidates"], be it a
    string or not. *)
Theorem call_gemini_api_classified (raised : string) (outcome : http_outcome) :
  (exists s,
      call_gemini_api_body raised outcome = JStr s
      /\ (prefix "API Error: " s = true \/ prefix "Error: " s = true))
  \/ (exists result cands first c ps p v,
        outcome = Decoded result
        /\ py_getitem result "candidates" = Some cands
        /\ py_first cands = Some first
        /\ py_getitem first "content" = Some c
        /\ py_getitem c "parts" = Some ps
        /\ py_first ps = Some p
        /\ py_getitem p "text" = Some v
        /\ call_gemini_api_body raised outcome = v).
Proof.
  destruct outcome as [e | e | result]; cbn [call_gemini_api_body].
  - left. eexists. split; [reflexivity|]. left. apply prefix_append.
  - left. eexists. split; [reflexivity|]. right. apply prefix_append.
  - assert (Herr : forall t,
               exists s, JStr ("Error: " ++ t) = JStr s
                         /\ (prefix "API Error: " s = true
                             \/ prefix "Error: " s = true)).
    { intros t. eexists. split; [reflexivity|]. right. apply prefix_append. }
    unfold find_text.
    destruct (py_in "candidates" result) as [[|]|];
      [| left; apply (Herr "Could not generate response")
       | left; apply Herr].
    destruct (py_getitem result "candidates") as [cands|] eqn:Hc;
      [|left; apply Herr].
    destruct (py_len cands) as [[|n]|];
      [ left; apply (Herr "Could not generate response")
      | | left; apply Herr].
    destruct (py_first cands) as [first|] eqn:Hf; [|left; apply Herr].
    destruct (py_in "content" first) as [[|]|];
      [| left; apply (Herr "Could not generate response")
       | left; apply Herr].
    destruct (py_getitem first "content") as [c|] eqn:Hct;
      [|left; apply Herr].
    destruct (py_in "parts" c) as [[|]|];
      [| left; apply (Herr "Could not generate response")
       | left; apply Herr].
    destruct (py_getitem c "parts") as [ps|] eqn:Hps; [|left; apply Herr].
    destruct (py_first ps) as [p|] eqn:Hp; [|left; apply Herr].
    destruct (py_getitem p "text") as [v|] eqn:Hv; [|left; apply Herr].
    right. exists result, cands, first, c, ps, p, v. repeat split; assumption.
Qed.

(** A body in which ["text"] holds a number, and one in which it holds
    null. *)
Example text_not_a_string :
  loads ("{" ++ dumps_str "candidates" ++ ": [{" ++ dumps_str "content"
         ++ ": {" ++ dumps_str "parts" ++ ": [{" ++ dumps_str "text"
         ++ ": 5}]}}]}")
  = Some (JObj [("candidates",
                 JArr [JObj [("content",
                   JObj [("parts", JArr [JObj [("text", JInt 5)]])])]])])
  /\ call_gemini_api_body EmptyString
       (Decoded (JObj [("candidates",
                  JArr [JObj [("content",
                    JObj [("parts", JArr [JObj [("text", JInt 5)]])])]])]))
     = JInt 5
  /\ call_gemini_api_body EmptyString
       (Decoded (JObj [("candidates",
                  JArr [JObj [("content",
                    JObj [("parts", JArr [JObj [("text", JNull)]])])]])]))
     = JNull.
Proof. repeat split; vm_compute; reflexivity. Qed.

End ProviderBody.
